(** * RDDs vs. DataFrames: the word-count and conversion examples

    A shallow embedding of the three code cells of the notebook
    [class examples/Spark Core/RDDs vs. DataFrames What Gives.ipynb]:

    - the RDD word count (cell "RDD Example"),
    - the DataFrame word count (cell "DataFrame Example"),
    - the RDD -> DataFrame -> RDD conversion (cell "Example 2").

    The notebook is a client of PySpark.  The calls it makes (the Python
    builtins [str.split] and [len], the RDD methods, the DataFrame methods
    and the Spark SQL functions) are modelled here by their documented
    behaviour on a dataset seen as the list of its elements in partition
    order.  What PySpark leaves open is a parameter of the model: the
    order in which a shuffle delivers the groups of a
    [reduceByKey]/[groupBy] and the elements that a sort key does not
    separate (a [Runtime]), and, for the lazy rows of the conversion, which
    rows the tasks of an action compute beside those it needs and which
    exception reaches the notebook (a [Conversion.Scheduler]). *)

From stdpp Require Import base list strings gmap sorting.
From Stdlib Require Import Ascii ZArith Lia DecimalString.

Local Open Scope Z_scope.

(** ** Strings *)

Definition space : ascii := " "%char.

(** The characters of a string, first to last. *)
Fixpoint chars (s : string) : list ascii :=
  match s with
  | EmptyString => []
  | String c s' => c :: chars s'
  end.

(** Python builtins used by the lambdas of the RDD cell. *)
Module Py.

(** [s.split(sep)] for a one-character separator: every occurrence of
    [sep] ends a piece, empty pieces are kept, and the result is never
    empty ([''.split(' ') == ['']]). *)
Fixpoint split (sep : ascii) (s : string) : list string :=
  match s with
  | EmptyString => [EmptyString]
  | String c s' =>
      if Ascii.eqb c sep then EmptyString :: split sep s'
      else match split sep s' with
           | [] => [String c EmptyString]
           | piece :: pieces => String c piece :: pieces
           end
  end.

(** [len(s)] *)
Definition len (s : string) : Z := Z.of_nat (String.length s).

(** [str(n)] for an int, as the f-string [f"{word}: {count}"] renders it. *)
Definition str (n : Z) : string := NilZero.string_of_int (Z.to_int n).

End Py.

(** Spark SQL functions used by the DataFrame cell. *)
Module Sql.

(** [split(col, " ")] with the default [limit=-1].  The pattern is a
    regular expression; the one the notebook passes is the single ordinary
    character " ", which stands for itself, and for such a pattern
    [java.lang.String.split] walks the string, closes the current segment
    at every space and adds the remaining segment at the end (trailing
    empty strings are kept because the limit is negative).  [seg] is the
    segment being read and [out] the segments already closed. *)
Fixpoint split_scan (rest seg : string) (out : list string) : list string :=
  match rest with
  | EmptyString => out ++ [seg]
  | String c rest' =>
      if Ascii.eqb c space then split_scan rest' EmptyString (out ++ [seg])
      else split_scan rest' (seg +:+ String c EmptyString) out
  end.

Definition split (s : string) : list string := split_scan s EmptyString [].

(** The text of one cell in the table of [show()]: the control
    characters are written as escapes, then a text of more than 20
    characters is cut to its first 17 characters and three dots. *)
Definition escape_char (c : ascii) : string :=
  match nat_of_ascii c with
  | 7%nat => "\a"
  | 8%nat => "\b"
  | 9%nat => "\t"
  | 10%nat => "\n"
  | 11%nat => "\v"
  | 12%nat => "\f"
  | 13%nat => "\r"
  | _ => String c EmptyString
  end.

Fixpoint escape (s : string) : string :=
  match s with
  | EmptyString => EmptyString
  | String c s' => escape_char c +:+ escape s'
  end.

Definition show_text (s : string) : string :=
  let t := escape s in
  if (20 <? String.length t)%nat then String.substring 0 17 t +:+ "..." else t.

(** [length(col)] : the number of characters of a string column. *)
Definition length (s : string) : Z := Z.of_nat (String.length s).

End Sql.

(** ** Rows of the word-count DataFrames *)

(** [spark.read.text] yields one row per line, in one column [value]. *)
Record LineRow := { value : string }.

(** [words_df]: the columns [value] and [word]. *)
Record WordRow := { w_value : string; w_word : string }.

(** [groupBy("word").count()]: the columns [word] and [count]. *)
Record CountRow := { word : string; count : Z }.

Global Instance LineRow_eq_dec : EqDecision LineRow.
Proof. solve_decision. Defined.
Global Instance WordRow_eq_dec : EqDecision WordRow.
Proof. solve_decision. Defined.
Global Instance CountRow_eq_dec : EqDecision CountRow.
Proof. solve_decision. Defined.

(** The (word, count) tuple of a count row, to compare the two pipelines. *)
Definition pair_of_row (r : CountRow) : string * Z := (word r, count r).

(** ** The runtime

    A shuffle moves the data between partitions; the order in which the
    elements come out of it is fixed by the partitioner, the number of
    partitions and the order in which blocks are fetched, none of which the
    notebook sets.  A [Runtime] gives that order for the key/value RDD of
    the first cell and for the count rows of the second; it is [fair] when
    it neither loses nor invents elements. *)
Record Runtime := {
  rdd_shuffle : list (string * Z) → list (string * Z);
  sql_exchange : list CountRow → list CountRow
}.

Definition fair (rt : Runtime) : Prop :=
  (∀ l, rdd_shuffle rt l ≡ₚ l) ∧ (∀ l, sql_exchange rt l ≡ₚ l).

(** The order of a sort on a key: [ascending=True] or [ascending=False]. *)
Definition key_le {A} (key : A → Z) (ascending : bool) : relation A :=
  λ x y, if ascending then key x ≤ key y else key y ≤ key x.

Global Instance key_le_dec {A} (key : A → Z) asc x y : Decision (key_le key asc x y).
Proof. unfold key_le. destruct asc; apply _. Defined.

(** A stable sort by insertion ([sorted] in Python and the sort of Spark
    SQL are stable): elements that the order does not separate keep the
    order in which they came. *)
Section stable_sort.
Context {A} (R : relation A) `{∀ x y, Decision (R x y)}.

Fixpoint insert_sorted (x : A) (l : list A) : list A :=
  match l with
  | [] => [x]
  | y :: l' => if decide (R x y) then x :: y :: l' else y :: insert_sorted x l'
  end.

Definition stable_sort (l : list A) : list A := foldr insert_sorted [] l.
End stable_sort.

(** ** RDD methods *)
Module RDD.

Definition map {A B} (f : A → B) (rdd : list A) : list B := f <$> rdd.

Definition flatMap {A B} (f : A → list B) (rdd : list A) : list B := rdd ≫= f.

Definition filter {A} (p : A → bool) (rdd : list A) : list A := List.filter p rdd.

(** One step of the combiner of [reduceByKey]: the dictionary holds, for
    every key seen so far, the values of that key folded with [f]. *)
Definition mergeValue (f : Z → Z → Z) (acc : gmap string Z) (kv : string * Z)
  : gmap string Z :=
  partial_alter
    (λ old, Some match old with Some u => f u kv.2 | None => kv.2 end)
    kv.1 acc.

Definition combineByKey (f : Z → Z → Z) (rdd : list (string * Z)) : gmap string Z :=
  foldl (mergeValue f) ∅ rdd.

(** [rdd.reduceByKey(f)]: one pair per key, delivered by the shuffle. *)
Definition reduceByKey (rt : Runtime) (f : Z → Z → Z) (rdd : list (string * Z))
  : list (string * Z) :=
  rdd_shuffle rt (map_to_list (combineByKey f rdd)).

(** [rdd.sortBy(keyfunc, ascending)]: a shuffle, then a sort on the key. *)
Definition sortBy (rt : Runtime) (keyfunc : string * Z → Z) (ascending : bool)
    (rdd : list (string * Z)) : list (string * Z) :=
  stable_sort (key_le keyfunc ascending) (rdd_shuffle rt rdd).

(** [rdd.take(n)]: the first [n] elements, fewer when there are fewer. *)
Definition take {A} (n : nat) (rdd : list A) : list A := firstn n rdd.

Definition collect {A} (rdd : list A) : list A := rdd.

End RDD.

(** ** DataFrame methods *)
Module DF.

(** [df.withColumn("word", explode(arr))]: one output row per element of
    the array computed from the input row. *)
Definition withColumn_explode (arr : LineRow → list string) (df : list LineRow)
  : list WordRow :=
  df ≫= (λ r, (λ w, {| w_value := value r; w_word := w |}) <$> arr r).

Definition filter {R} (cond : R → bool) (df : list R) : list R := List.filter cond df.

(** [df.groupBy(key)]: the rows of every key, in their order. *)
Definition groupBy {R} (key : R → string) (df : list R) : gmap string (list R) :=
  foldl (λ groups r, partial_alter (λ old, Some (default [] old ++ [r])) (key r) groups)
        ∅ df.

(** [grouped.count()]: one row per key with the number of its rows,
    delivered by the exchange.  The column is a 64-bit integer in Spark;
    a group would need 2^63 rows to leave its range, so the number is
    kept as it is. *)
Definition count {R} (rt : Runtime) (groups : gmap string (list R)) : list CountRow :=
  sql_exchange rt
    ((λ kv, {| word := kv.1; count := Z.of_nat (length kv.2) |}) <$> map_to_list groups).

(** [df.orderBy(col, ascending)]: an exchange, then a sort on the column. *)
Definition orderBy (rt : Runtime) (column : CountRow → Z) (ascending : bool)
    (df : list CountRow) : list CountRow :=
  stable_sort (key_le column ascending) (sql_exchange rt df).

(** [df.limit(n)] *)
Definition limit {R} (n : nat) (df : list R) : list R := firstn n df.

Definition collect {R} (df : list R) : list R := df.

End DF.

(** ** The two word-count pipelines, from the lines read *)

(** [lines_rdd = spark.read.text(...).rdd.map(lambda row: row[0])] *)
Definition lines_rdd (lines_df : list LineRow) : list string :=
  RDD.map (λ row, value row) lines_df.

(** [word_counts_rdd], cell 1 step 2. *)
Definition word_counts_rdd (rt : Runtime) (lines_df : list LineRow) : list (string * Z) :=
  RDD.reduceByKey rt (λ a b, a + b)
    (RDD.map (λ word, (word, 1))
       (RDD.filter (λ word, 0 <? Py.len word)
          (RDD.flatMap (λ line, Py.split space line) (lines_rdd lines_df)))).

(** [top_10_rdd], cell 1 step 3. *)
Definition top_10_rdd (rt : Runtime) (lines_df : list LineRow) : list (string * Z) :=
  RDD.take 10 (RDD.sortBy rt (λ x, x.2) false (word_counts_rdd rt lines_df)).

(** [words_df], cell 2 step 2. *)
Definition words_df (lines_df : list LineRow) : list WordRow :=
  DF.filter (λ r, 1 <=? Sql.length (w_word r))
    (DF.withColumn_explode (λ r, Sql.split (value r)) lines_df).

(** [word_counts_df], cell 2 step 3. *)
Definition word_counts_df (rt : Runtime) (lines_df : list LineRow) : list CountRow :=
  DF.limit 10
    (DF.orderBy rt count false
       (DF.count rt (DF.groupBy w_word (words_df lines_df)))).

(** Two runtimes: one delivers the words in alphabetical order, the other
    in the opposite order. *)
Definition rt_az : Runtime :=
  {| rdd_shuffle := stable_sort (λ x y, String.le x.1 y.1);
     sql_exchange := stable_sort (λ x y, String.le (word x) (word y)) |}.

Definition rt_za : Runtime :=
  {| rdd_shuffle := stable_sort (λ x y, String.le y.1 x.1);
     sql_exchange := stable_sort (λ x y, String.le (word y) (word x)) |}.

(** The DataFrame that [spark.read.text] builds from the lines of a file. *)
Definition text_rows (lines : list string) : list LineRow :=
  (λ l, {| value := l |}) <$> lines.

(** ** The notebook cells as programs

    A cell runs against the world outside the notebook: the files that
    Spark can read and the console.  It either returns a value or stops at
    the first exception raised by a call, and in both cases leaves a world
    behind. *)

(** A value of a row or of a Python tuple. *)
Inductive Value :=
  | VStr (s : string)
  | VInt (n : Z)
  | VNone.

Global Instance Value_eq_dec : EqDecision Value.
Proof. solve_decision. Defined.

(** The exceptions of the calls the notebook makes. *)
Inductive Error :=
  | PathNotFound (path : string)
  | LengthMismatch (obj : list Value)
  | NotNullable (field : string)
  | NotAccepted (field : string) (obj : Value)
  | OutOfRange (field : string) (n : Z)
  | IndexError (index : nat).

(** A cell of the table of a [show()]: a text, or the mark of a null. *)
Inductive ShownCell :=
  | Text (s : string)
  | Null.

(** What reaches the console: a [print] of a string, a [print] of a tuple,
    or the table of a [show()]: the column names, the rows of cells, and
    whether the line "only showing top 20 rows" follows. *)
Inductive Output :=
  | PrintStr (s : string)
  | PrintTuple (t : list Value)
  | Shown (header : list string) (rows : list (list ShownCell)) (more : bool).

Definition show_value (v : Value) : ShownCell :=
  match v with
  | VStr s => Text (Sql.show_text s)
  | VInt n => Text (Sql.show_text (Py.str n))
  | VNone => Null
  end.

(** The table that [show()] draws from the rows it fetched: it fetches one
    row more than the 20 it displays, to know whether rows are left. *)
Definition show_table (header : list string) (fetched : list (list Value)) : Output :=
  Shown (Sql.escape <$> header) ((λ row : list Value, show_value <$> row) <$> firstn 20 fetched)
        (20 <? length fetched)%nat.

Record World := {
  files : gmap string (list string);
  console : list Output
}.

Definition Cell (A : Type) : Type := World → (Error + A) * World.

Global Instance Cell_ret : MRet Cell := λ A a w, (inr a, w).

Global Instance Cell_bind : MBind Cell := λ A B k c w,
  match c w with
  | (inl e, w') => (inl e, w')
  | (inr a, w') => k a w'
  end.

Definition raise {A} (e : Error) : Cell A := λ w, (inl e, w).

Definition emit (o : Output) : Cell () := λ w,
  (inr (), {| files := files w; console := console w ++ [o] |}).

(** [print(s)] *)
Definition print (s : string) : Cell () := emit (PrintStr s).

(** [for x in l: body] *)
Fixpoint for_each {A} (l : list A) (body : A → Cell ()) : Cell () :=
  match l with
  | [] => mret ()
  | x :: l' => body x ;; for_each l' body
  end.

(** [spark.read.text(path)]: the path is resolved when the DataFrame is
    built, so a missing file raises there. *)
Definition read_text (path : string) : Cell (list LineRow) := λ w,
  match files w !! path with
  | Some lines => (inr (text_rows lines), w)
  | None => (inl (PathNotFound path), w)
  end.

(** [df.show()] on count rows: the table of the first 21 rows. *)
Definition show_counts (df : list CountRow) : Cell () :=
  emit (show_table ["word"; "count"]
          ((λ r, [VStr (word r); VInt (count r)]) <$> firstn 21 df)).

Definition input_path : string := "dbfs:/FileStore/sherlock.txt".

(** Cell "RDD Example". *)
Definition rdd_example (rt : Runtime) : Cell (list (string * Z)) :=
  lines_df ← read_text input_path;
  let top_10 := top_10_rdd rt lines_df in
  print "Top 10 words using RDD:";;
  for_each top_10 (λ wc, print (wc.1 +:+ ": " +:+ Py.str wc.2));;
  mret top_10.

(** Cell "DataFrame Example". *)
Definition df_example (rt : Runtime) : Cell (list CountRow) :=
  lines_df ← read_text input_path;
  let word_counts := word_counts_df rt lines_df in
  print "Top 10 words using DataFrame:";;
  show_counts word_counts;;
  mret word_counts.

(** ** Example 2: conversion between RDD and DataFrame *)
Module Conversion.

(** [pyspark.sql.types] *)
Inductive DataType := StringType | IntegerType.

Record StructField := { name : string; dataType : DataType; nullable : bool }.

Definition StructType := list StructField.

Definition Row := list Value.

(** A DataFrame built from an RDD is lazy: the row of a tuple is computed,
    or the exception of its check raised, when a task of an action gets to
    it. *)
Record DataFrame := { df_schema : StructType; df_rows : list (Error + Row) }.

(** What the scheduler decides when an action runs over an RDD of [n]
    tuples: beside the rows that the action needs, the positions of the
    rows that its tasks also compute ([extra_rows n]), and, of the
    exceptions raised by the tasks, the one that reaches the notebook
    ([blame]). *)
Record Scheduler := {
  extra_rows : nat → list nat;
  blame : Error → list Error → Error
}.

Definition lawful (sch : Scheduler) : Prop :=
  ∀ e es, blame sch e es ∈ e :: es.

(** The check and storage of one value in one field, as [createDataFrame]
    does it with [verifySchema=True]: [None] needs a nullable field; a
    [StringType] field takes any object and stores its string form; an
    [IntegerType] field takes an [int] in the range of 32 bits. *)
Definition convert_value (f : StructField) (v : Value) : Error + Value :=
  match v, dataType f with
  | VNone, _ => if nullable f then inr VNone else inl (NotNullable (name f))
  | VStr s, StringType => inr (VStr s)
  | VInt n, StringType => inr (VStr (Py.str n))
  | VInt n, IntegerType =>
      if (-2147483648 <=? n) && (n <=? 2147483647) then inr (VInt n)
      else inl (OutOfRange (name f) n)
  | VStr _, IntegerType => inl (NotAccepted (name f) v)
  end.

Fixpoint convert_fields (sch : StructType) (obj : list Value) : Error + Row :=
  match sch, obj with
  | f :: sch', v :: obj' =>
      match convert_value f v with
      | inl e => inl e
      | inr v' =>
          match convert_fields sch' obj' with
          | inl e => inl e
          | inr row => inr (v' :: row)
          end
      end
  | _, _ => inr []
  end.

(** A tuple must have as many items as the schema has fields; then its
    items are checked in order. *)
Definition convert_row (sch : StructType) (obj : list Value) : Error + Row :=
  if decide (length obj = length sch) then convert_fields sch obj
  else inl (LengthMismatch obj).

(** [spark.sparkContext.parallelize(c)] *)
Definition parallelize (c : list (list Value)) : list (list Value) := c.

(** [spark.createDataFrame(rdd, schema)] *)
Definition createDataFrame (rdd : list (list Value)) (sch : StructType) : DataFrame :=
  {| df_schema := sch; df_rows := convert_row sch <$> rdd |}.

(** The exceptions of the elements at some positions. *)
Definition errors_at {A} (positions : list nat) (l : list (Error + A)) : list Error :=
  omap (λ i, match l !! i with Some (inl e) => Some e | _ => None end) positions.

(** The elements that are there, without the exceptions. *)
Definition values {A} (l : list (Error + A)) : list A :=
  omap (λ x, match x with inr a => Some a | inl _ => None end) l.

(** An action that needs the first [needed] elements of a lazy dataset:
    its tasks compute these and the elements at the scheduler's extra
    positions; when one of them raises, the action raises the exception
    that the scheduler lets through, else it gets the elements it needs. *)
Definition run_action {A} (sch : Scheduler) (needed : nat) (l : list (Error + A))
  : Error + list A :=
  match errors_at (seq 0 needed ++ extra_rows sch (length l)) l with
  | e :: es => inl (blame sch e es)
  | [] => inr (values (firstn needed l))
  end.

(** [df.show()]: fetches the first 21 rows and draws their table. *)
Definition show (sch : Scheduler) (df : DataFrame) : Cell () :=
  match run_action sch (21 `min` length (df_rows df)) (df_rows df) with
  | inl e => raise e
  | inr fetched => emit (show_table (name <$> df_schema df) fetched)
  end.

(** [df.rdd] *)
Definition rdd (df : DataFrame) : list (Error + Row) := df_rows df.

(** [row[i]] *)
Definition getitem (row : Row) (i : nat) : Error + Value :=
  match row !! i with
  | Some v => inr v
  | None => inl (IndexError i)
  end.

(** [rdd.map(f)] where [f] may raise: lazy, element by element. *)
Definition map {A B} (f : A → Error + B) (r : list (Error + A)) : list (Error + B) :=
  (λ x, match x with inl e => inl e | inr a => f a end) <$> r.

(** [rdd.collect()]: needs every element. *)
Definition collect {A} (sch : Scheduler) (r : list (Error + A)) : Cell (list A) :=
  match run_action sch (length r) r with
  | inl e => raise e
  | inr l => mret l
  end.

(** [lambda row: (row[0], row[1])] *)
Definition first_two (row : Row) : Error + list Value :=
  match getitem row 0 with
  | inl e => inl e
  | inr v0 =>
      match getitem row 1 with
      | inl e => inl e
      | inr v1 => inr [v0; v1]
      end
  end.

(** [schema = StructType([StructField("fruit", StringType(), True),
    StructField("count", IntegerType(), True)])] *)
Definition schema : StructType :=
  [ {| name := "fruit"; dataType := StringType; nullable := true |};
    {| name := "count"; dataType := IntegerType; nullable := true |} ].

(** [data_rdd = spark.sparkContext.parallelize([("apple", 5), ("banana", 10),
    ("apple", 2)])] *)
Definition data_rdd : list (list Value) :=
  parallelize
    [ [VStr "apple"; VInt 5]; [VStr "banana"; VInt 10]; [VStr "apple"; VInt 2] ].

(** [df_from_rdd = spark.createDataFrame(data_rdd, schema)] *)
Definition df_from_rdd (data_rdd : list (list Value)) : DataFrame :=
  createDataFrame data_rdd schema.

(** [rdd_from_df = df_from_rdd.rdd.map(lambda row: (row[0], row[1]))] *)
Definition rdd_from_df (data_rdd : list (list Value)) : list (Error + list Value) :=
  map first_two (rdd (df_from_rdd data_rdd)).

(** The cell, for any RDD of tuples in place of [data_rdd]. *)
Definition conversion (sch : Scheduler) (data_rdd : list (list Value))
  : Cell (list (list Value)) :=
  print "DataFrame from RDD:";;
  show sch (df_from_rdd data_rdd);;
  print "RDD from DataFrame:";;
  elements ← collect sch (rdd_from_df data_rdd);
  for_each elements (λ element, emit (PrintTuple element));;
  mret elements.

(** Cell "Example 2". *)
Definition conversion_example (sch : Scheduler) : Cell (list (list Value)) :=
  conversion sch data_rdd.


Definition sch_eager : Scheduler :=
  {| extra_rows := λ n, seq 0 n; blame := λ e es, List.last es e |}.

End Conversion.

(** ** Vocabulary of the claims *)

(** [sep.join(pieces)] *)
Fixpoint join (sep : ascii) (pieces : list string) : string :=
  match pieces with
  | [] => ""
  | [piece] => piece
  | piece :: pieces' => piece +:+ String sep (join sep pieces')
  end.

(** The tokens of a text: the pieces of its lines, in order. *)
Definition tokens (lines : list string) : list string :=
  lines ≫= Py.split space.

(** The number of times [w] occurs in [ws]. *)
Definition occurrences (w : string) (ws : list string) : nat :=
  length (filter (λ x, x = w) ws).

(** The table that both pipelines are meant to build: every word of [ws]
    with the number of its occurrences. *)
Definition word_table (ws : list string) : gmap string Z :=
  list_to_map ((λ w, (w, Z.of_nat (occurrences w ws))) <$> ws).

(** The non-empty tokens of a text. *)
Definition words (lines : list string) : list string :=
  filter (λ w, w ≠ "") (tokens lines).

(** The number of distinct elements of a list. *)
Definition distinct (ws : list string) : nat := length (remove_dups ws).

(** A ranking of the words [ws] lists every pair of the table once, by
    non-increasing count.  Each pipeline computes one and keeps its first
    ten elements; which ranking it computes depends on the runtime. *)
Definition ranking (ws : list string) (l : list (string * Z)) : Prop :=
  l ≡ₚ map_to_list (word_table ws) ∧
  StronglySorted (key_le (λ x : string * Z, x.2) false) l.

(** A runtime whose RDD shuffle delivers from "a" to "z" and whose SQL
    exchange delivers from "z" to "a". *)
Definition rt_cross : Runtime :=
  {| rdd_shuffle := rdd_shuffle rt_az; sql_exchange := sql_exchange rt_za |}.

(** What a cell adds to the console. *)
Definition printed {A} (cell : Cell A) (w : World) : list Output :=
  drop (length (console w)) (console (cell w).2).

(** The counts of a result, or the exception in its place. *)
Definition counts_of {R} (count_of : R → Z) (r : Error + list R) : Error + list Z :=
  sum_map id (fmap count_of) r.

(** The world after [out] was printed. *)
Definition say (w : World) (out : list Output) : World :=
  {| files := files w; console := console w ++ out |}.

(** A cell only prints when it leaves the files as they were and only
    appends to the console. *)
Definition only_prints {A} (cell : Cell A) (w : World) : Prop :=
  files (cell w).2 = files w ∧ console w `prefix_of` console (cell w).2.

(** Two worlds: the file of the notebook holds one line in both, and the
    console of the second is not empty. *)
Definition world_ab : World :=
  {| files := {[ input_path := ["a b"] ]}; console := [] |}.

Definition world_ab_used : World :=
  {| files := {[ input_path := ["a b"]; "dbfs:/FileStore/other.txt" := ["c"] ]};
     console := [PrintStr "earlier output"] |}.

(** A world without files. *)
Definition empty_world : World := {| files := ∅; console := [] |}.

(** The sum of the counts of a list of pairs. *)
Definition total_count (l : list (string * Z)) : Z :=
  foldr (λ p acc, p.2 + acc) 0 l.

(** A line of spaces only (or of nothing). *)
Definition blank (line : string) : Prop :=
  Forall (λ c, c = space) (chars line).

(** The number of times a character occurs in a string. *)
Definition char_count (c : ascii) (s : string) : nat :=
  length (filter (λ x, x = c) (chars s)).

(** A tuple that fits the schema of the conversion: two items, of which
    the second is an [int] of 32 bits or [None]; the first may be any
    object. *)
Definition fits_schema (row : list Value) : bool :=
  match row with
  | [fruit; cnt] =>
      match cnt with
      | VInt n => (-2147483648 <=? n) && (n <=? 2147483647)
      | VNone => true
      | VStr _ => false
      end
  | _ => false
  end.

(** The row that the DataFrame holds for a tuple that fits: the first item
    in its string form. *)
Definition stored (row : list Value) : list Value :=
  match row with
  | VInt n :: rest => VStr (Py.str n) :: rest
  | _ => row
  end.

(** A tuple whose first item is a [str] or [None]. *)
Definition text_first (row : list Value) : bool :=
  match row with
  | VInt _ :: _ => false
  | _ => true
  end.

(** * Properties *)

(** ** The sort *)
Section stable_sort_facts.
Context {A} (R : relation A) `{∀ x y, Decision (R x y)}.

Lemma insert_sorted_Permutation x l : insert_sorted R x l ≡ₚ x :: l.
Proof.
  induction l as [|y l IH]; simpl; [done|].
  case_decide; [done|]. rewrite IH. apply Permutation_swap.
Qed.

Lemma stable_sort_Permutation l : stable_sort R l ≡ₚ l.
Proof.
  induction l as [|x l IH]; simpl; [done|].
  by rewrite insert_sorted_Permutation, IH.
Qed.

Context `{!Transitive R, !Total R}.

Lemma StronglySorted_insert_sorted x l :
  StronglySorted R l → StronglySorted R (insert_sorted R x l).
Proof.
  induction 1 as [|y l Hl IH Hy]; simpl.
  - repeat constructor.
  - case_decide as Hxy.
    + constructor; [by constructor|].
      constructor; [done|]. eapply Forall_impl; [exact Hy|].
      intros z Hz. by etrans.
    + constructor; [done|].
      rewrite insert_sorted_Permutation. constructor; [|done].
      by destruct (total R x y).
Qed.

Lemma StronglySorted_stable_sort l : StronglySorted R (stable_sort R l).
Proof.
  induction l; simpl; [constructor|]. by apply StronglySorted_insert_sorted.
Qed.
End stable_sort_facts.

Global Instance key_le_trans {A} (key : A → Z) asc : Transitive (key_le key asc).
Proof. intros x y z. unfold key_le. destruct asc; lia. Qed.

Global Instance key_le_total {A} (key : A → Z) asc : Total (key_le key asc).
Proof. intros x y. unfold key_le. destruct asc; lia. Qed.

(** ** The two [split]s *)

Example py_split_1 : Py.split space "a  b " = ["a"; ""; "b"; ""].
Proof. reflexivity. Qed.

Example py_split_2 : Py.split space "" = [""].
Proof. reflexivity. Qed.

Example sql_split_1 : Sql.split " a  b " = [""; "a"; ""; "b"; ""].
Proof. reflexivity. Qed.

Example py_str_1 : Py.str 120 = "120".
Proof. reflexivity. Qed.

Lemma string_app_assoc (s1 s2 s3 : string) : (s1 +:+ s2) +:+ s3 = s1 +:+ (s2 +:+ s3).
Proof.
  induction s1 as [|a s1 IH]; [done|].
  change (String a ((s1 +:+ s2) +:+ s3) = String a (s1 +:+ (s2 +:+ s3))).
  by rewrite IH.
Qed.

Lemma string_app_empty_r (s : string) : s +:+ "" = s.
Proof.
  induction s as [|a s IH]; [done|].
  change (String a (s +:+ "") = String a s). by rewrite IH.
Qed.

Lemma py_split_not_nil sep s : Py.split sep s ≠ [].
Proof.
  destruct s as [|c s]; simpl; [done|].
  destruct (Ascii.eqb c sep); [done|]. by destruct (Py.split sep s).
Qed.

(** The scan of Spark SQL, started in the middle of a segment, closes the
    segment with the first piece that Python finds in the rest. *)
Lemma sql_split_scan_py rest seg out :
  Sql.split_scan rest seg out =
    out ++ match Py.split space rest with
           | [] => [seg]
           | piece :: pieces => (seg +:+ piece) :: pieces
           end.
Proof.
  revert seg out. induction rest as [|c rest IH]; intros seg out; simpl.
  - by rewrite string_app_empty_r.
  - destruct (Ascii.eqb c space).
    + rewrite IH, <-app_assoc. simpl. rewrite string_app_empty_r.
      f_equal. f_equal. pose proof (py_split_not_nil space rest).
      by destruct (Py.split space rest).
    + rewrite IH. pose proof (py_split_not_nil space rest).
      destruct (Py.split space rest); [done|].
      by rewrite string_app_assoc.
Qed.

Lemma sql_split_py s : Sql.split s = Py.split space s.
Proof.
  unfold Sql.split. rewrite sql_split_scan_py. simpl.
  pose proof (py_split_not_nil space s). by destruct (Py.split space s).
Qed.

(** No piece of a split holds the separator. *)
Lemma py_split_no_sep sep s piece :
  piece ∈ Py.split sep s → sep ∉ chars piece.
Proof.
  revert piece. induction s as [|c s IH]; intros piece; simpl.
  - intros ->%list_elem_of_singleton. simpl. apply not_elem_of_nil.
  - destruct (Ascii.eqb c sep) eqn:Hc.
    + intros [->|?]%elem_of_cons; [apply not_elem_of_nil|by apply IH].
    + pose proof (py_split_not_nil sep s).
      destruct (Py.split sep s) as [|p ps]; [done|].
      intros [->|?]%elem_of_cons.
      * simpl. intros [->|?]%elem_of_cons.
        -- by rewrite Ascii.eqb_refl in Hc.
        -- by apply (IH p); [left|].
      * apply IH. by right.
Qed.

(** Joining the pieces with the separator gives the string back. *)
Lemma py_split_join sep s : join sep (Py.split sep s) = s.
Proof.
  induction s as [|c s IH]; [done|]. simpl.
  pose proof (py_split_not_nil sep s) as Hne.
  destruct (Ascii.eqb_spec c sep) as [->|Hc].
  - destruct (Py.split sep s) as [|p ps]; [done|].
    change (String sep (join sep (p :: ps)) = String sep s). by rewrite IH.
  - destruct (Py.split sep s) as [|p ps]; [done|].
    rewrite <-IH. by destruct ps.
Qed.

(** ** The table of counts *)

Lemma occurrences_cons w x ws :
  occurrences w (x :: ws) = if decide (x = w) then S (occurrences w ws) else occurrences w ws.
Proof. unfold occurrences. rewrite filter_cons. by case_decide. Qed.

Lemma occurrences_pos w ws : w ∈ ws → (0 < occurrences w ws)%nat.
Proof.
  induction 1 as [x ws|x y ws _ IH]; rewrite occurrences_cons; case_decide;
    try lia; done.
Qed.

Lemma occurrences_fmap {R} (key : R → string) k (rows : list R) :
  occurrences k (key <$> rows) = length (filter (λ r, key r = k) rows).
Proof.
  unfold occurrences. induction rows as [|r rows IH]; [done|].
  rewrite fmap_cons, !filter_cons. repeat case_decide; simpl; congruence.
Qed.

(** What the combiner of [reduceByKey] holds after the pairs [(w, 1)] of a
    list of words, starting from any dictionary. *)
Lemma combine_lookup_from ws (m : gmap string Z) w :
  foldl (RDD.mergeValue Z.add) m ((λ x, (x, 1)) <$> ws) !! w =
    match m !! w with
    | Some c => Some (c + Z.of_nat (occurrences w ws))
    | None => if decide (w ∈ ws) then Some (Z.of_nat (occurrences w ws)) else None
    end.
Proof.
  revert m. induction ws as [|x ws IH]; intros m.
  - simpl. destruct (m !! w); [f_equal; unfold occurrences; simpl; lia|done].
  - rewrite fmap_cons. simpl. rewrite IH. unfold RDD.mergeValue. simpl.
    rewrite occurrences_cons. destruct (decide (x = w)) as [->|Hne].
    + rewrite lookup_partial_alter_eq.
      rewrite (decide_True (P := w ∈ w :: ws)) by left.
      destruct (m !! w); f_equal; lia.
    + rewrite lookup_partial_alter_ne by done.
      destruct (m !! w); [done|].
      destruct (decide (w ∈ ws)).
      * by rewrite decide_True by (by right).
      * rewrite decide_False; [done|]. by intros [?|?]%elem_of_cons.
Qed.

Lemma combineByKey_lookup ws w :
  RDD.combineByKey Z.add ((λ x, (x, 1)) <$> ws) !! w =
    if decide (w ∈ ws) then Some (Z.of_nat (occurrences w ws)) else None.
Proof. unfold RDD.combineByKey. by rewrite combine_lookup_from, lookup_empty. Qed.

(** The rows that [groupBy] holds for a key, starting from any grouping. *)
Lemma groupBy_lookup_from {R} (key : R → string) rows (g : gmap string (list R)) k :
  foldl (λ groups r, partial_alter (λ old, Some (default [] old ++ [r])) (key r) groups)
        g rows !! k =
    match g !! k with
    | Some rs => Some (rs ++ filter (λ r, key r = k) rows)
    | None => if decide (k ∈ key <$> rows)
              then Some (filter (λ r, key r = k) rows) else None
    end.
Proof.
  revert g. induction rows as [|r rows IH]; intros g.
  - simpl. destruct (g !! k); [by rewrite filter_nil, app_nil_r|done].
  - simpl. rewrite IH, filter_cons. destruct (decide (key r = k)) as [<-|Hne].
    + rewrite lookup_partial_alter_eq.
      rewrite (decide_True (P := key r ∈ key r :: _)) by left.
      destruct (g !! key r); simpl; [by rewrite <-app_assoc|done].
    + rewrite lookup_partial_alter_ne by done.
      destruct (g !! k); [done|].
      destruct (decide (k ∈ key <$> rows)).
      * by rewrite decide_True by (by right).
      * rewrite decide_False; [done|]. intros [?|?]%elem_of_cons; [congruence|done].
Qed.

Lemma groupBy_count_lookup {R} (key : R → string) rows k :
  ((λ rs, Z.of_nat (length rs)) <$> DF.groupBy key rows) !! k =
    if decide (k ∈ key <$> rows)
    then Some (Z.of_nat (occurrences k (key <$> rows))) else None.
Proof.
  unfold DF.groupBy. rewrite lookup_fmap, groupBy_lookup_from, lookup_empty.
  case_decide; [|done]. simpl. by rewrite occurrences_fmap.
Qed.

Lemma list_to_map_fmap_lookup (f : string → Z) (l : list string) w :
  (list_to_map ((λ x, (x, f x)) <$> l) : gmap string Z) !! w =
    if decide (w ∈ l) then Some (f w) else None.
Proof.
  induction l as [|x l IH]; [done|].
  rewrite fmap_cons, list_to_map_cons. destruct (decide (x = w)) as [->|Hne].
  - rewrite lookup_insert_eq. by rewrite decide_True by left.
  - rewrite lookup_insert_ne, IH by done. destruct (decide (w ∈ l)).
    + by rewrite decide_True by (by right).
    + rewrite decide_False; [done|]. intros [?|?]%elem_of_cons; [congruence|done].
Qed.

Lemma word_table_lookup ws w :
  word_table ws !! w =
    if decide (w ∈ ws) then Some (Z.of_nat (occurrences w ws)) else None.
Proof. apply (list_to_map_fmap_lookup (λ x, Z.of_nat (occurrences x ws))). Qed.

Lemma combineByKey_word_table ws :
  RDD.combineByKey Z.add ((λ x, (x, 1)) <$> ws) = word_table ws.
Proof. apply map_eq. intros w. by rewrite combineByKey_lookup, word_table_lookup. Qed.

Lemma groupBy_count_word_table {R} (key : R → string) rows :
  (λ rs, Z.of_nat (length rs)) <$> DF.groupBy key rows = word_table (key <$> rows).
Proof. apply map_eq. intros w. by rewrite groupBy_count_lookup, word_table_lookup. Qed.

Lemma word_table_elem_of ws w c :
  (w, c) ∈ map_to_list (word_table ws) ↔ w ∈ ws ∧ c = Z.of_nat (occurrences w ws).
Proof.
  rewrite elem_of_map_to_list, word_table_lookup. case_decide.
  - split; [by intros [= <-]|by intros [_ ->]].
  - split; [done|by intros [? _]].
Qed.

Lemma word_table_size ws :
  size (word_table ws) = size (list_to_set ws : gset string).
Proof.
  rewrite <-(size_dom (D := gset string)). f_equal. apply set_eq. intros w.
  rewrite elem_of_dom, word_table_lookup, elem_of_list_to_set.
  case_decide; [by split; eauto|]. split; [by intros [? ?]|done].
Qed.

(** ** The words that each pipeline counts *)

Lemma filter_nonempty_len (l : list string) :
  List.filter (λ w, 0 <? Py.len w) l = filter (λ w, w ≠ "") l.
Proof.
  induction l as [|w l IH]; [done|]. rewrite filter_cons. simpl. rewrite IH.
  destruct w; [by rewrite decide_False by (by intros [])|].
  by rewrite decide_True.
Qed.

Lemma filter_nonempty_length (l : list string) :
  List.filter (λ w, 1 <=? Sql.length w) l = filter (λ w, w ≠ "") l.
Proof.
  induction l as [|w l IH]; [done|]. rewrite filter_cons. simpl. rewrite IH.
  destruct w; [by rewrite decide_False by (by intros [])|].
  rewrite decide_True by done. unfold Sql.length. simpl String.length.
  by destruct (Z.leb_spec 1 (Z.of_nat (S (String.length w)))); [|lia].
Qed.

Lemma lines_rdd_text_rows lines : lines_rdd (text_rows lines) = lines.
Proof.
  unfold lines_rdd, RDD.map, text_rows.
  induction lines as [|l lines IH]; [done|]. by rewrite !fmap_cons, IH.
Qed.

(** The words of the RDD pipeline before [map(lambda word: (word, 1))]. *)
Lemma rdd_words lines :
  RDD.filter (λ word, 0 <? Py.len word)
    (RDD.flatMap (λ line, Py.split space line) (lines_rdd (text_rows lines)))
  = words lines.
Proof.
  unfold RDD.filter, RDD.flatMap. by rewrite lines_rdd_text_rows, filter_nonempty_len.
Qed.

Lemma filter_fmap_bool {A B} (f : A → B) (p : B → bool) (l : list A) :
  f <$> List.filter (λ x, p (f x)) l = List.filter p (f <$> l).
Proof.
  induction l as [|x l IH]; [done|]. simpl. destruct (p (f x)); [|done].
  by rewrite fmap_cons, IH.
Qed.

(** The column [word] of [words_df]. *)
Lemma df_words lines : w_word <$> words_df (text_rows lines) = words lines.
Proof.
  unfold words_df, DF.filter, DF.withColumn_explode.
  rewrite (filter_fmap_bool w_word (λ w, 1 <=? Sql.length w)), filter_nonempty_length.
  unfold words, tokens, text_rows. f_equal.
  induction lines as [|l lines IH]; [done|].
  rewrite fmap_cons, !bind_cons, fmap_app, IH. f_equal. simpl.
  rewrite sql_split_py, <-list_fmap_compose.
  apply (list_fmap_id (Py.split space l)).
Qed.

(** ** Rankings *)

Lemma rdd_ranking rt lines :
  fair rt →
  ranking (words lines)
    (RDD.sortBy rt (λ x, x.2) false (word_counts_rdd rt (text_rows lines))).
Proof.
  intros [Hrdd _]. split.
  - unfold RDD.sortBy, word_counts_rdd, RDD.reduceByKey, RDD.map.
    rewrite stable_sort_Permutation, !Hrdd, rdd_words.
    by rewrite combineByKey_word_table.
  - apply StronglySorted_stable_sort; apply _.
Qed.

Lemma df_ranking rt lines :
  fair rt →
  ranking (words lines)
    (pair_of_row <$>
       DF.orderBy rt count false
         (DF.count rt (DF.groupBy w_word (words_df (text_rows lines))))).
Proof.
  intros [_ Hsql]. split.
  - unfold DF.orderBy, DF.count.
    rewrite stable_sort_Permutation, !Hsql, <-list_fmap_compose.
    rewrite <-df_words, <-groupBy_count_word_table, map_to_list_fmap.
    apply reflexive_eq, list_fmap_ext. by intros _ [k rs] _.
  - apply (StronglySorted_fmap pair_of_row (key_le count false)); [by intros [] []|].
    apply StronglySorted_stable_sort; apply _.
Qed.

Lemma top_10_rdd_take rt lines_df :
  top_10_rdd rt lines_df =
    take 10 (RDD.sortBy rt (λ x, x.2) false (word_counts_rdd rt lines_df)).
Proof. done. Qed.

Lemma word_counts_df_take rt lines_df :
  pair_of_row <$> word_counts_df rt lines_df =
    take 10 (pair_of_row <$>
               DF.orderBy rt count false
                 (DF.count rt (DF.groupBy w_word (words_df lines_df)))).
Proof. unfold word_counts_df, DF.limit. apply fmap_take. Qed.

Section ranking_facts.
Context (ws : list string) (l : list (string * Z)) (Hl : ranking ws l).

Lemma ranking_elem_of w c :
  (w, c) ∈ l ↔ w ∈ ws ∧ c = Z.of_nat (occurrences w ws).
Proof. destruct Hl as [Hp _]. rewrite Hp. apply word_table_elem_of. Qed.

Lemma ranking_length : length l = size (list_to_set ws : gset string).
Proof.
  destruct Hl as [Hp _]. by rewrite Hp, length_map_to_list, word_table_size.
Qed.

Lemma ranking_take_sorted n :
  StronglySorted (λ x y : string * Z, y.2 ≤ x.2) (take n l).
Proof.
  destruct Hl as [_ Hs]. rewrite <-(take_drop n l) in Hs.
  by apply StronglySorted_app_1_l in Hs.
Qed.

(** Whatever is kept counts at least as much as whatever is cut. *)
Lemma ranking_take_drop n x y : x ∈ take n l → y ∈ drop n l → y.2 ≤ x.2.
Proof.
  destruct Hl as [_ Hs]. rewrite <-(take_drop n l) in Hs.
  intros Hx Hy. by apply (StronglySorted_app_1_elem_of _ _ _ _ _ Hs).
Qed.

Lemma ranking_excluded n w :
  w ∈ ws → w ∉ (take n l).*1 → (w, Z.of_nat (occurrences w ws)) ∈ drop n l.
Proof.
  intros Hw Hout.
  assert ((w, Z.of_nat (occurrences w ws)) ∈ l) as Hin by by apply ranking_elem_of.
  rewrite <-(take_drop n l) in Hin. apply elem_of_app in Hin as [Hin|Hin]; [|done].
  destruct Hout. apply list_elem_of_fmap. by exists (w, Z.of_nat (occurrences w ws)).
Qed.
End ranking_facts.

Lemma distinct_size ws : distinct ws = size (list_to_set ws : gset string).
Proof.
  unfold distinct. rewrite <-(size_list_to_set (C := gset string))
    by apply NoDup_remove_dups.
  f_equal. apply set_eq. intros w.
  by rewrite !elem_of_list_to_set, elem_of_remove_dups.
Qed.

Lemma elem_of_words lines w : w ∈ words lines ↔ w ≠ "" ∧ w ∈ tokens lines.
Proof. unfold words. by rewrite list_elem_of_filter. Qed.

Lemma occurrences_words lines w :
  w ≠ "" → occurrences w (words lines) = occurrences w (tokens lines).
Proof.
  intros Hw. unfold words. induction (tokens lines) as [|x l IH]; [done|].
  rewrite filter_cons, (occurrences_cons w x l). case_decide as Hx.
  - by rewrite occurrences_cons, IH.
  - rewrite IH, decide_False; [done|]. intros ->. by apply Hw, dec_stable.
Qed.

Lemma tokens_no_space lines w : w ∈ tokens lines → space ∉ chars w.
Proof.
  unfold tokens. intros (line & Hw & _)%list_elem_of_bind.
  by eapply py_split_no_sep.
Qed.

Lemma fair_rt_az : fair rt_az.
Proof. split; intros l; apply stable_sort_Permutation. Qed.

Lemma fair_rt_za : fair rt_za.
Proof. split; intros l; apply stable_sort_Permutation. Qed.

(** ** Claims on the two word counts *)

(** C3. Each pipeline ends with [take(10)] or [limit(10)]: whatever the
    text, the length of its result is the minimum of 10 and the number of
    distinct non-empty words of the text. *)
Theorem top_10_length (rt : Runtime) (lines : list string) :
  fair rt →
  length (top_10_rdd rt (text_rows lines)) = (10 `min` distinct (words lines))%nat ∧
  length (word_counts_df rt (text_rows lines)) = (10 `min` distinct (words lines))%nat.
Proof.
  intros Hrt. rewrite distinct_size. split.
  - rewrite top_10_rdd_take, length_take.
    by rewrite (ranking_length _ _ (rdd_ranking rt lines Hrt)).
  - rewrite <-(length_fmap pair_of_row), word_counts_df_take, length_take.
    by rewrite (ranking_length _ _ (df_ranking rt lines Hrt)).
Qed.

Lemma top_10_length_witness :
  fair rt_az ∧
  length (top_10_rdd rt_az (text_rows ["to be or not to be"])) = 4%nat ∧
  length (word_counts_df rt_az (text_rows ["to be or not to be"])) = 4%nat.
Proof.
  split; [exact fair_rt_az|].
  exact (top_10_length rt_az ["to be or not to be"] fair_rt_az).
Defined.

(** C9. Every (word, count) pair of either result has a word that is not
    empty and holds no space, and a count that is at least 1 and is the
    number of occurrences of the word among the tokens of the text. *)
Theorem top_10_pairs_valid (rt : Runtime) (lines : list string) (w : string) (c : Z) :
  fair rt →
  ((w, c) ∈ top_10_rdd rt (text_rows lines)) ∨
    ({| word := w; count := c |} ∈ word_counts_df rt (text_rows lines)) →
  w ≠ "" ∧ (space ∉ chars w) ∧ 1 ≤ c ∧ c = Z.of_nat (occurrences w (tokens lines)).
Proof.
  intros Hrt Hin.
  assert (w ∈ words lines ∧ c = Z.of_nat (occurrences w (words lines))) as [Hw ->].
  { destruct Hin as [Hin|Hin].
    - rewrite top_10_rdd_take in Hin. apply subseteq_take in Hin.
      by apply (ranking_elem_of _ _ (rdd_ranking rt lines Hrt)).
    - apply (list_elem_of_fmap_2 pair_of_row) in Hin.
      rewrite word_counts_df_take in Hin. apply subseteq_take in Hin.
      by apply (ranking_elem_of _ _ (df_ranking rt lines Hrt)). }
  pose proof (occurrences_pos _ _ Hw) as Hpos.
  apply elem_of_words in Hw as [Hne Htok].
  rewrite occurrences_words in * by done.
  split_and!; [done|by eapply tokens_no_space|lia|done].
Qed.

Lemma top_10_pairs_valid_witness :
  fair rt_az ∧
  ((("be", 2) ∈ top_10_rdd rt_az (text_rows ["to be or not to be"])) ∨
   ({| word := "be"; count := 2 |} ∈ word_counts_df rt_az (text_rows ["to be or not to be"]))) ∧
  "be" ≠ "" ∧ (space ∉ chars "be") ∧ 1 ≤ 2 ∧
  2 = Z.of_nat (occurrences "be" (tokens ["to be or not to be"])).
Proof.
  assert ((("be", 2) ∈ top_10_rdd rt_az (text_rows ["to be or not to be"])) ∨
   ({| word := "be"; count := 2 |} ∈ word_counts_df rt_az (text_rows ["to be or not to be"])))
    as Hin by (left; vm_compute; apply list_elem_of_here).
  split; [exact fair_rt_az|]. split; [exact Hin|].
  exact (top_10_pairs_valid rt_az ["to be or not to be"] "be" 2 fair_rt_az Hin).
Defined.

(** C10. Each result is sorted by non-increasing count, and a word in the
    result counts at least as much as any non-empty word of the text that
    is left out of it. *)
Theorem top_10_sorted_maximal (rt : Runtime) (lines : list string) :
  fair rt →
  (StronglySorted (λ x y, y.2 ≤ x.2) (top_10_rdd rt (text_rows lines)) ∧
   ∀ w c w', (w, c) ∈ top_10_rdd rt (text_rows lines) →
     w' ∈ words lines → w' ∉ (top_10_rdd rt (text_rows lines)).*1 →
     Z.of_nat (occurrences w' (tokens lines)) ≤ c) ∧
  (StronglySorted (λ x y, count y ≤ count x) (word_counts_df rt (text_rows lines)) ∧
   ∀ w c w', {| word := w; count := c |} ∈ word_counts_df rt (text_rows lines) →
     w' ∈ words lines → w' ∉ word <$> word_counts_df rt (text_rows lines) →
     Z.of_nat (occurrences w' (tokens lines)) ≤ c).
Proof.
  intros Hrt.
  pose proof (rdd_ranking rt lines Hrt) as Hrdd.
  pose proof (df_ranking rt lines Hrt) as Hdf.
  split; split.
  - rewrite top_10_rdd_take. by apply (ranking_take_sorted (words lines)).
  - intros w c w' Hin Hw' Hout. rewrite top_10_rdd_take in Hin, Hout.
    rewrite <-occurrences_words by (by apply elem_of_words in Hw' as [? _]).
    apply (ranking_take_drop _ _ Hrdd 10 (w, c) (w', _) Hin).
    by apply (ranking_excluded (words lines)).
  - unfold word_counts_df, DF.limit, DF.orderBy.
    pose proof (StronglySorted_stable_sort (key_le count false)
      (sql_exchange rt (DF.count rt (DF.groupBy w_word (words_df (text_rows lines))))))
      as Hs.
    rewrite <-(take_drop 10) in Hs. by apply StronglySorted_app_1_l in Hs.
  - intros w c w' Hin Hw' Hout.
    apply (list_elem_of_fmap_2 pair_of_row) in Hin.
    rewrite word_counts_df_take in Hin.
    rewrite <-occurrences_words by (by apply elem_of_words in Hw' as [? _]).
    apply (ranking_take_drop _ _ Hdf 10 (w, c) (w', _) Hin).
    apply (ranking_excluded (words lines)); [done..|].
    rewrite <-word_counts_df_take, <-list_fmap_compose. exact Hout.
Qed.

Lemma top_10_sorted_maximal_witness :
  fair rt_az ∧
  StronglySorted (λ x y : string * Z, y.2 ≤ x.2)
    (top_10_rdd rt_az (text_rows ["to be or not to be"])).
Proof.
  split; [exact fair_rt_az|].
  exact (proj1 (proj1 (top_10_sorted_maximal rt_az ["to be or not to be"] fair_rt_az))).
Defined.

(** ** Two rankings of the same table *)
Section two_rankings.
Context {A : Type} (key : A → Z).
Context (l1 l2 : list A).
Context (Hnodup : NoDup l1) (Hperm : l1 ≡ₚ l2).
Context (Hs1 : StronglySorted (key_le key false) l1).
Context (Hs2 : StronglySorted (key_le key false) l2).

(** The keys come in the same sequence. *)
Lemma rankings_same_keys : key <$> l1 = key <$> l2.
Proof.
  assert (AntiSymm (=) (λ a b : Z, b ≤ a)) by (intros a b ??; lia).
  apply (StronglySorted_unique (λ a b : Z, b ≤ a)).
  - by apply (StronglySorted_fmap key (key_le key false)).
  - by apply (StronglySorted_fmap key (key_le key false)).
  - by rewrite Hperm.
Qed.

(** In a ranking, whatever has a larger key than the element at
    position [i] stands before position [i]. *)
Lemma ranking_larger_before i x z :
  l2 !! i = Some x → z ∈ l2 → key x < key z → z ∈ take i l2.
Proof.
  intros Hi Hz Hlt. rewrite <-(take_drop_middle l2 i x Hi) in Hz, Hs2.
  apply elem_of_app in Hz as [Hz|Hz]; [done|].
  apply StronglySorted_app_1_r, StronglySorted_cons in Hs2 as [Hall _].
  apply elem_of_cons in Hz as [->|Hz]; [lia|].
  rewrite Forall_forall in Hall. specialize (Hall z Hz).
  unfold key_le in Hall. lia.
Qed.

(** When no element cut at [n] from the first ranking ties with one that
    is kept, the second ranking keeps the same elements. *)
Lemma rankings_same_take n :
  (∀ x y, x ∈ take n l1 → y ∈ drop n l1 → key y < key x) →
  take n l1 ≡ₚ take n l2.
Proof.
  intros Hcut. symmetry. apply submseteq_length_Permutation.
  - apply NoDup_submseteq.
    { apply (sublist_NoDup _ l2); [by rewrite <-Hperm|apply sublist_take]. }
    intros x Hx.
    assert (x ∈ l1) as Hin by (rewrite Hperm; by eapply subseteq_take).
    rewrite <-(take_drop n l1) in Hin.
    apply elem_of_app in Hin as [?|Hdrop]; [done|]. exfalso.
    apply elem_of_take in Hx as (i & Hi & Hlt).
    assert (take n l1 ⊆+ take i l2) as Hsub.
    { apply NoDup_submseteq.
      - apply (sublist_NoDup _ l1); [done|apply sublist_take].
      - intros z Hz. apply (ranking_larger_before i x z Hi).
        + rewrite <-Hperm. by eapply subseteq_take.
        + by apply Hcut. }
    apply submseteq_length in Hsub. rewrite !length_take in Hsub.
    assert (n < length l1)%nat.
    { apply list_elem_of_lookup in Hdrop as [j Hj].
      apply lookup_lt_Some in Hj. rewrite length_drop in Hj. lia. }
    lia.
  - rewrite !length_take. by rewrite Hperm.
Qed.
End two_rankings.

Lemma ranking_NoDup_fst ws l : ranking ws l → NoDup l.*1.
Proof. intros [Hp _]. rewrite Hp. apply NoDup_fst_map_to_list. Qed.

(** The sequence of counts of the RDD result is that of the DataFrame
    result. *)
Lemma top_10_same_counts rt lines :
  fair rt →
  (top_10_rdd rt (text_rows lines)).*2 = count <$> word_counts_df rt (text_rows lines).
Proof.
  intros Hrt.
  pose proof (rdd_ranking rt lines Hrt) as [Hp1 Hs1].
  pose proof (df_ranking rt lines Hrt) as [Hp2 Hs2].
  rewrite (list_fmap_compose pair_of_row snd), word_counts_df_take.
  rewrite top_10_rdd_take, !fmap_take. f_equal.
  apply (rankings_same_keys snd); [|done..]. by rewrite Hp1, Hp2.
Qed.

(** C1, as the notebook behaves.  Both pipelines rank the same table, so
    their results show the same counts in the same sequence; they hold the
    same pairs whenever no word left out of the RDD result counts as much
    as a word in it, which covers every text of at most 10 distinct
    non-empty words.  Between words of equal count at the cut, the choice
    is the runtime's. *)
Theorem top_10_agree (rt : Runtime) (lines : list string) :
  fair rt →
  (top_10_rdd rt (text_rows lines)).*2 = count <$> word_counts_df rt (text_rows lines) ∧
  ((∀ w c w', (w, c) ∈ top_10_rdd rt (text_rows lines) →
      w' ∈ words lines → w' ∉ (top_10_rdd rt (text_rows lines)).*1 →
      Z.of_nat (occurrences w' (tokens lines)) < c) →
   top_10_rdd rt (text_rows lines) ≡ₚ pair_of_row <$> word_counts_df rt (text_rows lines)) ∧
  ((distinct (words lines) ≤ 10)%nat →
   top_10_rdd rt (text_rows lines) ≡ₚ pair_of_row <$> word_counts_df rt (text_rows lines)).
Proof.
  intros Hrt.
  pose proof (rdd_ranking rt lines Hrt) as Hrdd.
  pose proof (df_ranking rt lines Hrt) as Hdf.
  assert (NoDup (RDD.sortBy rt (λ x, x.2) false (word_counts_rdd rt (text_rows lines))))
    as Hnodup by (eapply NoDup_fmap_1, ranking_NoDup_fst, Hrdd).
  assert (RDD.sortBy rt (λ x, x.2) false (word_counts_rdd rt (text_rows lines)) ≡ₚ
          pair_of_row <$> DF.orderBy rt count false
            (DF.count rt (DF.groupBy w_word (words_df (text_rows lines)))))
    as Hperm by (destruct Hrdd as [Hp1 _], Hdf as [Hp2 _]; by rewrite Hp1, Hp2).
  split; [by apply top_10_same_counts|]. split.
  - intros Hcut. rewrite word_counts_df_take, top_10_rdd_take.
    apply (rankings_same_take snd _ _ Hnodup Hperm (proj2 Hdf)).
    intros [w c] [w' c'] Hin Hout. simpl.
    pose proof (subseteq_drop _ _ _ Hout) as Hin'.
    apply (ranking_elem_of _ _ Hrdd) in Hin' as [Hw' ->].
    rewrite occurrences_words by (by apply elem_of_words in Hw' as [? _]).
    apply (Hcut w c w' Hin Hw'). rewrite top_10_rdd_take.
    intros Hkept. pose proof (ranking_NoDup_fst _ _ Hrdd) as Hkeys.
    rewrite <-(take_drop 10 (RDD.sortBy rt _ false _)), fmap_app in Hkeys.
    apply NoDup_app in Hkeys as (_ & Hdisj & _).
    apply (Hdisj w' Hkept). by apply (list_elem_of_fmap_2 fst) in Hout.
  - intros Hfew. rewrite distinct_size in Hfew.
    rewrite word_counts_df_take, top_10_rdd_take.
    rewrite !take_ge; [done|..].
    + by rewrite (ranking_length _ _ Hdf).
    + by rewrite (ranking_length _ _ Hrdd).
Qed.

Lemma fair_rt_cross : fair rt_cross.
Proof. split; intros l; apply stable_sort_Permutation. Qed.

(** Membership in a list that computes to a literal. *)
Ltac elem_of_cases H :=
  vm_compute in H;
  repeat (apply elem_of_cons in H as [H|H]);
  [..|by apply elem_of_nil in H].

Ltac elem_of_literal := apply (bool_decide_unpack _); vm_compute; exact I.
Ltac not_elem_of_literal := apply (bool_decide_eq_false_1 _); vm_compute; reflexivity.

Lemma top_10_agree_witness :
  fair rt_cross ∧
  (top_10_rdd rt_cross (text_rows ["a a b b c c d d e e f f g g h h i i j j k"])).*2
    = count <$> word_counts_df rt_cross
                  (text_rows ["a a b b c c d d e e f f g g h h i i j j k"]) ∧
  top_10_rdd rt_cross (text_rows ["a a b b c c d d e e f f g g h h i i j j k"])
    ≡ₚ pair_of_row <$> word_counts_df rt_cross
                         (text_rows ["a a b b c c d d e e f f g g h h i i j j k"]).
Proof.
  split; [exact fair_rt_cross|].
  destruct (top_10_agree rt_cross ["a a b b c c d d e e f f g g h h i i j j k"]
              fair_rt_cross) as (Hcounts & Hpairs & _).
  split; [exact Hcounts|]. apply Hpairs.
  intros w c w' Hin Hw' Hout.
  assert (c = 2) as ->.
  { elem_of_cases Hin; by inversion Hin. }
  elem_of_cases Hw'; subst w'; try (vm_compute; reflexivity);
    exfalso; apply Hout; elem_of_literal.
Defined.

(** C1 as stated fails.  On a line of eleven words that occur once each,
    a runtime whose RDD shuffle delivers the words from "a" to "k" and
    whose SQL exchange delivers them from "k" to "a" makes the RDD pipeline
    keep "a" to "j" and the DataFrame pipeline keep "k" to "b". *)
Lemma top_10_may_differ :
  fair rt_cross ∧
  top_10_rdd rt_cross (text_rows ["a b c d e f g h i j k"]) =
    [("a", 1); ("b", 1); ("c", 1); ("d", 1); ("e", 1);
     ("f", 1); ("g", 1); ("h", 1); ("i", 1); ("j", 1)] ∧
  pair_of_row <$> word_counts_df rt_cross (text_rows ["a b c d e f g h i j k"]) =
    [("k", 1); ("j", 1); ("i", 1); ("h", 1); ("g", 1);
     ("f", 1); ("e", 1); ("d", 1); ("c", 1); ("b", 1)] ∧
  ¬ (∀ p, p ∈ top_10_rdd rt_cross (text_rows ["a b c d e f g h i j k"]) ↔
          p ∈ pair_of_row <$> word_counts_df rt_cross (text_rows ["a b c d e f g h i j k"])).
Proof.
  split; [exact fair_rt_cross|]. split; [by vm_compute|]. split; [by vm_compute|].
  intros Heq. destruct (Heq ("a", 1)) as [Hin _].
  assert (("a", 1) ∉ pair_of_row <$>
            word_counts_df rt_cross (text_rows ["a b c d e f g h i j k"])) as Hout
    by not_elem_of_literal.
  apply Hout, Hin. elem_of_literal.
Qed.

(** ** The cells *)

Lemma say_nil w : say w [] = w.
Proof. destruct w. unfold say. simpl. by rewrite app_nil_r. Qed.

Lemma say_say w out1 out2 : say (say w out1) out2 = say w (out1 ++ out2).
Proof. unfold say. simpl. by rewrite app_assoc. Qed.

Lemma emit_say o w : emit o w = (inr (), say w [o]).
Proof. done. Qed.

Lemma for_each_emit {A} (f : A → Output) (l : list A) w :
  for_each l (λ x, emit (f x)) w = (inr (), say w (f <$> l)).
Proof.
  revert w. induction l as [|x l IH]; intros w; simpl.
  - by rewrite say_nil.
  - unfold mbind, Cell_bind. rewrite emit_say, IH, say_say. done.
Qed.

Lemma printed_say {A} (cell : Cell A) w r out :
  cell w = (r, say w out) → printed cell w = out.
Proof.
  intros Hrun. unfold printed. rewrite Hrun. simpl. by rewrite drop_app_length.
Qed.

(** A cell that stops with an exception stops whatever follows it, with
    that exception and the world it left. *)
Lemma bind_error {A B} (cell : Cell A) (k : A → Cell B) w e w' :
  cell w = (inl e, w') → (cell ≫= k) w = (inl e, w').
Proof. intros Hrun. unfold mbind, Cell_bind. by rewrite Hrun. Qed.

Lemma bind_value {A B} (cell : Cell A) (k : A → Cell B) w a w' :
  cell w = (inr a, w') → (cell ≫= k) w = k a w'.
Proof. intros Hrun. unfold mbind, Cell_bind. by rewrite Hrun. Qed.

Lemma printed_none {A} (cell : Cell A) w r : cell w = (r, w) → printed cell w = [].
Proof. intros Hrun. apply (printed_say _ _ r). by rewrite say_nil. Qed.

(** The run of the RDD cell, in full. *)
Lemma rdd_example_run rt w :
  rdd_example rt w =
    match files w !! input_path with
    | Some lines =>
        let top_10 := top_10_rdd rt (text_rows lines) in
        (inr top_10,
         say w (PrintStr "Top 10 words using RDD:" ::
                ((λ wc, PrintStr (wc.1 +:+ ": " +:+ Py.str wc.2)) <$> top_10)))
    | None => (inl (PathNotFound input_path), w)
    end.
Proof.
  unfold rdd_example, mbind, Cell_bind, read_text.
  destruct (files w !! input_path) as [lines|]; [|done].
  unfold print. rewrite emit_say.
  rewrite (for_each_emit (λ wc, PrintStr (wc.1 +:+ ": " +:+ Py.str wc.2))).
  by rewrite say_say.
Qed.

(** The run of the DataFrame cell, in full. *)
Lemma df_example_run rt w :
  df_example rt w =
    match files w !! input_path with
    | Some lines =>
        let word_counts := word_counts_df rt (text_rows lines) in
        (inr word_counts,
         say w [PrintStr "Top 10 words using DataFrame:";
                show_table ["word"; "count"]
                  ((λ r, [VStr (word r); VInt (count r)]) <$> take 21 word_counts)])
    | None => (inl (PathNotFound input_path), w)
    end.
Proof.
  unfold df_example, mbind, Cell_bind, read_text.
  destruct (files w !! input_path) as [lines|]; [|done].
  unfold print, show_counts. rewrite !emit_say. unfold mret, Cell_ret.
  by rewrite say_say.
Qed.

(** *** Actions on lazy datasets *)
Section run_action_facts.
Context {A : Type} (sch : Conversion.Scheduler) (l : list (Error + A)).

Lemma errors_at_elem positions e :
  e ∈ Conversion.errors_at positions l ↔ ∃ i, i ∈ positions ∧ l !! i = Some (inl e).
Proof.
  unfold Conversion.errors_at. rewrite list_elem_of_omap. split.
  - intros (i & Hi & Hf). exists i. split; [done|].
    destruct (l !! i) as [[e'|a]|]; by simplify_eq.
  - intros (i & Hi & Hl). exists i. by rewrite Hl.
Qed.

(** An action raises only an exception of one of the elements. *)
Lemma run_action_raises needed e :
  Conversion.lawful sch →
  Conversion.run_action sch needed l = inl e → ∃ i, l !! i = Some (inl e).
Proof.
  intros Hlaw. unfold Conversion.run_action.
  destruct (Conversion.errors_at _ l) as [|e0 es] eqn:He; [done|].
  intros [= <-]. specialize (Hlaw e0 es). rewrite <-He in Hlaw.
  apply errors_at_elem in Hlaw as (i & _ & Hi). by exists i.
Qed.

(** An action raises when an element that it needs raises. *)
Lemma run_action_needed_raises needed i e0 :
  (i < needed)%nat → l !! i = Some (inl e0) →
  ∃ e, Conversion.run_action sch needed l = inl e.
Proof.
  intros Hi Hl. unfold Conversion.run_action.
  assert (e0 ∈ Conversion.errors_at
            (seq 0 needed ++ Conversion.extra_rows sch (length l)) l) as Hin.
  { apply errors_at_elem. exists i. split; [|done].
    apply elem_of_app. left. apply elem_of_seq. lia. }
  destruct (Conversion.errors_at _ l) as [|e es]; [by apply elem_of_nil in Hin|].
  by eexists.
Qed.

(** An action gets what it needs when no element that its tasks compute
    raises. *)
Lemma run_action_values needed :
  (∀ i e, i ∈ seq 0 needed ++ Conversion.extra_rows sch (length l) →
          l !! i ≠ Some (inl e)) →
  Conversion.run_action sch needed l = inr (Conversion.values (take needed l)).
Proof.
  intros Hok. unfold Conversion.run_action.
  destruct (Conversion.errors_at _ l) as [|e es] eqn:He; [done|].
  assert (e ∈ Conversion.errors_at
            (seq 0 needed ++ Conversion.extra_rows sch (length l)) l) as Hin
    by (rewrite He; left).
  apply errors_at_elem in Hin as (i & Hi & Hl). by destruct (Hok i e).
Qed.

Lemma run_action_inr needed got :
  Conversion.run_action sch needed l = inr got →
  got = Conversion.values (take needed l).
Proof.
  unfold Conversion.run_action.
  destruct (Conversion.errors_at _ l); [by intros [= <-]|done].
Qed.
End run_action_facts.

(** *** The rows of the conversion *)

Lemma convert_row_fits t :
  fits_schema t = true →
  Conversion.convert_row Conversion.schema t = inr (stored t).
Proof.
  unfold Conversion.convert_row.
  destruct t as [|fruit [|cnt [|extra t]]]; simpl; try done.
  destruct fruit as [s|n|], cnt as [s'|n'|]; simpl; try done;
    by intros ->.
Qed.

Lemma convert_row_unfit t :
  fits_schema t = false →
  ∃ e, Conversion.convert_row Conversion.schema t = inl e.
Proof.
  unfold Conversion.convert_row.
  destruct t as [|fruit [|cnt [|extra t]]]; simpl; try by eexists.
  destruct fruit as [s|n|], cnt as [s'|n'|]; simpl; try done;
    try (by eexists); by intros ->; eexists.
Qed.

Lemma convert_row_inr t row :
  Conversion.convert_row Conversion.schema t = inr row →
  fits_schema t = true ∧ row = stored t.
Proof.
  intros Hrow. destruct (fits_schema t) eqn:Hfits.
  - rewrite convert_row_fits in Hrow by done. by injection Hrow as <-.
  - apply convert_row_unfit in Hfits as [e He]. congruence.
Qed.

Lemma convert_row_inl t e :
  Conversion.convert_row Conversion.schema t = inl e → fits_schema t = false.
Proof.
  intros Hrow. destruct (fits_schema t) eqn:Hfits; [|done].
  rewrite convert_row_fits in Hrow by done. done.
Qed.

Lemma first_two_stored t :
  fits_schema t = true → Conversion.first_two (stored t) = inr (stored t).
Proof.
  destruct t as [|fruit [|cnt [|extra t]]]; try done. by destruct fruit.
Qed.

(** The lambda [(row[0], row[1])] gives every row of two fields back, so
    the RDD drawn from the DataFrame holds the rows of the DataFrame. *)
Lemma rdd_from_df_rows c :
  Conversion.rdd_from_df c = Conversion.convert_row Conversion.schema <$> c.
Proof.
  unfold Conversion.rdd_from_df, Conversion.map, Conversion.rdd, Conversion.df_from_rdd,
    Conversion.createDataFrame. simpl. rewrite <-list_fmap_compose.
  apply list_fmap_ext. intros _ t _. simpl.
  destruct (Conversion.convert_row Conversion.schema t) as [e|row] eqn:Hrow; [done|].
  apply convert_row_inr in Hrow as [Hfits ->]. by apply first_two_stored.
Qed.

Lemma rows_lookup_inl (c : list (list Value)) (i : nat) e :
  (Conversion.convert_row Conversion.schema <$> c) !! i = Some (inl e) →
  ∃ t, c !! i = Some t ∧ Conversion.convert_row Conversion.schema t = inl e ∧
       fits_schema t = false.
Proof.
  rewrite list_lookup_fmap. destruct (c !! i) as [t|]; [|done].
  intros [= Ht]. exists t. split_and!; [done..|]. by eapply convert_row_inl.
Qed.

Lemma values_rows_fit c :
  Forall (λ t, fits_schema t = true) c →
  Conversion.values (Conversion.convert_row Conversion.schema <$> c) = stored <$> c.
Proof.
  unfold Conversion.values. induction 1 as [|t c Ht _ IH]; [done|].
  rewrite !fmap_cons, (convert_row_fits t Ht). simpl. f_equal. exact IH.
Qed.

(** The run of the conversion cell, in full, for any RDD of tuples: it
    stops at [show()], or at [collect()], or prints every element. *)
Lemma conversion_run sch c w :
  Conversion.conversion sch c w =
    let rows := Conversion.convert_row Conversion.schema <$> c in
    match Conversion.run_action sch (21 `min` length rows) rows with
    | inl e => (inl e, say w [PrintStr "DataFrame from RDD:"])
    | inr fetched =>
        let shown :=
          [PrintStr "DataFrame from RDD:";
           show_table (Conversion.name <$> Conversion.schema) fetched;
           PrintStr "RDD from DataFrame:"] in
        match Conversion.run_action sch (length rows) rows with
        | inl e => (inl e, say w shown)
        | inr elements => (inr elements, say w (shown ++ (PrintTuple <$> elements)))
        end
    end.
Proof.
  unfold Conversion.conversion, Conversion.show, Conversion.collect.
  rewrite rdd_from_df_rows.
  unfold Conversion.df_from_rdd, Conversion.createDataFrame, mbind, Cell_bind, print.
  cbn [Conversion.df_rows Conversion.df_schema]. rewrite emit_say.
  destruct (Conversion.run_action sch _ _) as [e|fetched]; [done|].
  rewrite !emit_say, !say_say.
  destruct (Conversion.run_action sch (length _) _) as [e|elements]; [done|].
  unfold mret, Cell_ret. rewrite (for_each_emit PrintTuple). by rewrite say_say.
Qed.


Lemma lawful_sch_eager : Conversion.lawful Conversion.sch_eager.
Proof.
  intros e es. simpl. induction es as [|e' es IH]; [left|].
  destruct es as [|e'' es]; [right; left|].
  change (List.last (e'' :: es) e ∈ e :: e' :: e'' :: es).
  apply elem_of_cons in IH as [->|IH]; [left|right; by right].
Qed.

Lemma only_prints_say {A} (cell : Cell A) w r out :
  cell w = (r, say w out) → only_prints cell w.
Proof. intros Hrun. unfold only_prints. rewrite Hrun. split; [done|by exists out]. Qed.

Lemma only_prints_none {A} (cell : Cell A) w r : cell w = (r, w) → only_prints cell w.
Proof. intros Hrun. apply (only_prints_say _ _ r []). by rewrite say_nil. Qed.

(** ** Claims on the cells *)



(** C5. A run of any cell leaves every file as it was and only appends
    to the console. *)
Theorem cells_only_print (rt : Runtime) (sch : Conversion.Scheduler)
    (c : list (list Value)) (w : World) :
  only_prints (rdd_example rt) w ∧
  only_prints (df_example rt) w ∧
  only_prints (Conversion.conversion sch c) w ∧
  only_prints (Conversion.conversion_example sch) w.
Proof.
  assert (∀ c', only_prints (Conversion.conversion sch c') w) as Hconv.
  { intros c'. pose proof (conversion_run sch c' w) as Hrun. cbv zeta in Hrun.
    destruct (Conversion.run_action sch (21 `min` _) _);
      [by eapply only_prints_say|].
    destruct (Conversion.run_action sch (length _) _); by eapply only_prints_say. }
  split_and!; [| |apply Hconv..].
  - pose proof (rdd_example_run rt w) as Hrun.
    destruct (files w !! input_path);
      [by eapply only_prints_say|by eapply only_prints_none].
  - pose proof (df_example_run rt w) as Hrun.
    destruct (files w !! input_path);
      [by eapply only_prints_say|by eapply only_prints_none].
Qed.

Lemma data_rdd_fits : Forall (λ t, fits_schema t = true) Conversion.data_rdd.
Proof. by repeat constructor. Qed.

Lemma rows_fit_no_error (c : list (list Value)) (positions : list nat) :
  Forall (λ t, fits_schema t = true) c →
  ∀ (i : nat) e, i ∈ positions →
    (Conversion.convert_row Conversion.schema <$> c) !! i ≠ Some (inl e).
Proof.
  intros Hc i e _ (t & Ht & _ & Hfits)%rows_lookup_inl.
  rewrite Forall_forall in Hc. apply list_elem_of_lookup_2 in Ht.
  rewrite (Hc t Ht) in Hfits. done.
Qed.

(** [collect()] on an RDD of tuples that all fit returns their rows. *)
Lemma collect_rows_fit sch c w :
  Forall (λ t, fits_schema t = true) c →
  Conversion.collect sch (Conversion.rdd_from_df c) w = (inr (stored <$> c), w).
Proof.
  intros Hc. unfold Conversion.collect. rewrite rdd_from_df_rows.
  rewrite run_action_values by by apply rows_fit_no_error.
  by rewrite firstn_all, values_rows_fit.
Qed.

Lemma conversion_result_fit sch c w :
  Forall (λ t, fits_schema t = true) c →
  (Conversion.conversion sch c w).1 = inr (stored <$> c).
Proof.
  intros Hc. rewrite conversion_run. cbv zeta.
  rewrite !run_action_values by by apply rows_fit_no_error.
  by rewrite firstn_all, values_rows_fit.
Qed.

(** C8. On the three pairs of the notebook, the conversion to a
    DataFrame and back is the identity: [collect()] returns the pairs that
    [parallelize] was given, in their order, whatever the world and the
    scheduler. *)
Theorem conversion_round_trip (sch : Conversion.Scheduler) (w : World) :
  Conversion.data_rdd =
    [[VStr "apple"; VInt 5]; [VStr "banana"; VInt 10]; [VStr "apple"; VInt 2]] ∧
  Conversion.collect sch (Conversion.rdd_from_df Conversion.data_rdd) w =
    (inr [[VStr "apple"; VInt 5]; [VStr "banana"; VInt 10]; [VStr "apple"; VInt 2]], w) ∧
  (Conversion.conversion_example sch w).1 = inr Conversion.data_rdd.
Proof.
  split; [done|]. split.
  - by rewrite (collect_rows_fit sch _ w data_rdd_fits).
  - unfold Conversion.conversion_example.
    by rewrite (conversion_result_fit sch _ w data_rdd_fits).
Qed.

(** The schema of the conversion: [fruit], a nullable string, then
    [count], a nullable integer. *)
Lemma schema_fields :
  Conversion.name <$> Conversion.schema = ["fruit"; "count"] ∧
  Conversion.dataType <$> Conversion.schema =
    [Conversion.StringType; Conversion.IntegerType] ∧
  Conversion.nullable <$> Conversion.schema = [true; true].
Proof. done. Qed.

(** Two fair runtimes show the same counts in the same sequence. *)
Lemma top_10_counts_runtime rt rt' lines :
  fair rt → fair rt' →
  (top_10_rdd rt (text_rows lines)).*2 = (top_10_rdd rt' (text_rows lines)).*2 ∧
  count <$> word_counts_df rt (text_rows lines) =
    count <$> word_counts_df rt' (text_rows lines).
Proof.
  intros Hrt Hrt'.
  assert ((top_10_rdd rt (text_rows lines)).*2 = (top_10_rdd rt' (text_rows lines)).*2)
    as Hrdd.
  { pose proof (rdd_ranking rt lines Hrt) as [Hp Hs].
    pose proof (rdd_ranking rt' lines Hrt') as [Hp' Hs'].
    rewrite !top_10_rdd_take, !fmap_take. f_equal.
    apply (rankings_same_keys snd); [|done..]. by rewrite Hp, Hp'. }
  split; [done|].
  by rewrite <-(top_10_same_counts rt lines Hrt), <-(top_10_same_counts rt' lines Hrt').
Qed.

(** C4, as the notebook behaves.  A run reads nothing but the file of the
    notebook: under one runtime, two worlds that agree on that file give
    the same result and the same printed output.  Under two runtimes the
    results still show the same counts in the same sequence; the order and
    choice of words of equal count is the runtime's. *)
Theorem runs_agree (rt rt' : Runtime) (w w' : World) :
  fair rt → fair rt' →
  files w !! input_path = files w' !! input_path →
  ((rdd_example rt w).1 = (rdd_example rt w').1 ∧
   printed (rdd_example rt) w = printed (rdd_example rt) w') ∧
  ((df_example rt w).1 = (df_example rt w').1 ∧
   printed (df_example rt) w = printed (df_example rt) w') ∧
  counts_of snd (rdd_example rt w).1 = counts_of snd (rdd_example rt' w').1 ∧
  counts_of count (df_example rt w).1 = counts_of count (df_example rt' w').1.
Proof.
  intros Hrt Hrt' Hfile.
  pose proof (rdd_example_run rt w) as Hr1.
  pose proof (rdd_example_run rt w') as Hr2.
  pose proof (rdd_example_run rt' w') as Hr3.
  pose proof (df_example_run rt w) as Hd1.
  pose proof (df_example_run rt w') as Hd2.
  pose proof (df_example_run rt' w') as Hd3.
  rewrite <-Hfile in Hr2, Hr3, Hd2, Hd3.
  destruct (files w !! input_path) as [lines|].
  - rewrite (printed_say _ _ _ _ Hr1), (printed_say _ _ _ _ Hr2).
    rewrite (printed_say _ _ _ _ Hd1), (printed_say _ _ _ _ Hd2).
    rewrite Hr1, Hr2, Hr3, Hd1, Hd2, Hd3. simpl.
    destruct (top_10_counts_runtime rt rt' lines Hrt Hrt') as [Hc1 Hc2].
    split_and!; try done; unfold counts_of; simpl; by f_equal.
  - rewrite (printed_none _ _ _ Hr1), (printed_none _ _ _ Hr2).
    rewrite (printed_none _ _ _ Hd1), (printed_none _ _ _ Hd2).
    by rewrite Hr1, Hr2, Hr3, Hd1, Hd2, Hd3.
Qed.

Lemma runs_agree_witness :
  fair rt_az ∧ fair rt_za ∧
  files world_ab !! input_path = files world_ab_used !! input_path ∧
  ((rdd_example rt_az world_ab).1 = (rdd_example rt_az world_ab_used).1 ∧
   printed (rdd_example rt_az) world_ab = printed (rdd_example rt_az) world_ab_used) ∧
  ((df_example rt_az world_ab).1 = (df_example rt_az world_ab_used).1 ∧
   printed (df_example rt_az) world_ab = printed (df_example rt_az) world_ab_used) ∧
  counts_of snd (rdd_example rt_az world_ab).1 =
    counts_of snd (rdd_example rt_za world_ab_used).1 ∧
  counts_of count (df_example rt_az world_ab).1 =
    counts_of count (df_example rt_za world_ab_used).1.
Proof.
  split; [exact fair_rt_az|]. split; [exact fair_rt_za|].
  split; [vm_compute; reflexivity|].
  apply (runs_agree rt_az rt_za world_ab world_ab_used fair_rt_az fair_rt_za).
  vm_compute; reflexivity.
Defined.

(** C4 as stated fails.  On the one-line file "a b" both words count 1:
    a runtime that delivers "a" first makes the RDD cell return and print
    "a" then "b", a runtime that delivers "b" first makes it return and
    print "b" then "a". *)
Lemma runs_may_differ :
  fair rt_az ∧ fair rt_za ∧
  (rdd_example rt_az world_ab).1 = inr [("a", 1); ("b", 1)] ∧
  (rdd_example rt_za world_ab).1 = inr [("b", 1); ("a", 1)] ∧
  printed (rdd_example rt_az) world_ab =
    [PrintStr "Top 10 words using RDD:"; PrintStr "a: 1"; PrintStr "b: 1"] ∧
  printed (rdd_example rt_za) world_ab =
    [PrintStr "Top 10 words using RDD:"; PrintStr "b: 1"; PrintStr "a: 1"] ∧
  (rdd_example rt_az world_ab).1 ≠ (rdd_example rt_za world_ab).1 ∧
  printed (rdd_example rt_az) world_ab ≠ printed (rdd_example rt_za) world_ab.
Proof.
  split; [exact fair_rt_az|]. split; [exact fair_rt_za|].
  assert ((rdd_example rt_az world_ab).1 = inr [("a", 1); ("b", 1)]) as H1
    by (vm_compute; reflexivity).
  assert ((rdd_example rt_za world_ab).1 = inr [("b", 1); ("a", 1)]) as H2
    by (vm_compute; reflexivity).
  assert (printed (rdd_example rt_az) world_ab =
    [PrintStr "Top 10 words using RDD:"; PrintStr "a: 1"; PrintStr "b: 1"]) as H3
    by (vm_compute; reflexivity).
  assert (printed (rdd_example rt_za) world_ab =
    [PrintStr "Top 10 words using RDD:"; PrintStr "b: 1"; PrintStr "a: 1"]) as H4
    by (vm_compute; reflexivity).
  split_and!; [done..| |]; [rewrite H1, H2|rewrite H3, H4]; discriminate.
Qed.


(** * Further properties of the cells *)

(** ** The tables before the cut *)

Lemma word_counts_rdd_table rt lines :
  fair rt →
  word_counts_rdd rt (text_rows lines) ≡ₚ map_to_list (word_table (words lines)).
Proof.
  intros [Hrdd _]. unfold word_counts_rdd, RDD.reduceByKey, RDD.map.
  by rewrite Hrdd, rdd_words, combineByKey_word_table.
Qed.

Lemma df_counts_table rt lines :
  fair rt →
  pair_of_row <$> DF.count rt (DF.groupBy w_word (words_df (text_rows lines)))
    ≡ₚ map_to_list (word_table (words lines)).
Proof.
  intros [_ Hsql]. unfold DF.count. rewrite Hsql, <-list_fmap_compose.
  rewrite <-df_words, <-groupBy_count_word_table, map_to_list_fmap.
  apply reflexive_eq, list_fmap_ext. by intros _ [k rs] _.
Qed.

Global Instance total_count_Permutation : Proper ((≡ₚ) ==> (=)) total_count.
Proof.
  intros l1 l2 Hl. induction Hl as [|x l1 l2 _ IH|x y l|l1 l2 l3 _ IH1 _ IH2];
    simpl; [done|by rewrite IH|lia|congruence].
Qed.

Lemma total_count_mergeValue (m : gmap string Z) w :
  total_count (map_to_list (RDD.mergeValue Z.add m (w, 1))) =
    total_count (map_to_list m) + 1.
Proof.
  unfold RDD.mergeValue. simpl. destruct (m !! w) as [u|] eqn:Hw.
  - assert (partial_alter
              (λ old, Some match old with Some u0 => u0 + 1 | None => 1 end) w m
            = <[w:=u + 1]> (delete w m)) as ->.
    { apply map_eq. intros k. destruct (decide (k = w)) as [->|Hk].
      - by rewrite lookup_partial_alter_eq, Hw, lookup_insert_eq.
      - by rewrite lookup_partial_alter_ne, lookup_insert_ne, lookup_delete_ne. }
    rewrite map_to_list_insert by apply lookup_delete_eq.
    rewrite <-(map_to_list_delete m w u Hw). simpl. lia.
  - assert (partial_alter
              (λ old, Some match old with Some u0 => u0 + 1 | None => 1 end) w m
            = <[w:=1]> m) as ->.
    { apply map_eq. intros k. destruct (decide (k = w)) as [->|Hk].
      - by rewrite lookup_partial_alter_eq, Hw, lookup_insert_eq.
      - by rewrite lookup_partial_alter_ne, lookup_insert_ne. }
    rewrite map_to_list_insert by done. simpl. lia.
Qed.

Lemma total_count_combine ws (m : gmap string Z) :
  total_count (map_to_list (foldl (RDD.mergeValue Z.add) m ((λ x, (x, 1)) <$> ws))) =
    total_count (map_to_list m) + Z.of_nat (length ws).
Proof.
  revert m. induction ws as [|w ws IH]; intros m; simpl; [lia|].
  rewrite IH, total_count_mergeValue. lia.
Qed.

Lemma total_count_word_table ws :
  total_count (map_to_list (word_table ws)) = Z.of_nat (length ws).
Proof.
  rewrite <-combineByKey_word_table. unfold RDD.combineByKey.
  by rewrite total_count_combine, map_to_list_empty.
Qed.

(** X1. Before [sortBy]/[take] and [orderBy]/[limit], the two pipelines
    hold the same pairs: [word_counts_rdd] and the rows of
    [groupBy("word").count()] are permutations of each other, whatever the
    text. *)
Theorem word_tables_agree (rt : Runtime) (lines : list string) :
  fair rt →
  word_counts_rdd rt (text_rows lines) ≡ₚ
    pair_of_row <$> DF.count rt (DF.groupBy w_word (words_df (text_rows lines))).
Proof.
  intros Hrt. by rewrite word_counts_rdd_table, df_counts_table.
Qed.

Lemma word_tables_agree_witness :
  fair rt_cross ∧
  word_counts_rdd rt_cross (text_rows ["to be or not to be"]) ≡ₚ
    pair_of_row <$>
      DF.count rt_cross (DF.groupBy w_word (words_df (text_rows ["to be or not to be"]))).
Proof.
  split; [exact fair_rt_cross|].
  exact (word_tables_agree rt_cross ["to be or not to be"] fair_rt_cross).
Defined.

(** X2. The narrow steps keep the order: the column [word] of [words_df]
    is, element by element, the RDD of words that the first cell counts
    ([flatMap] of [split] then [filter]). *)
Theorem word_streams_agree (lines : list string) :
  w_word <$> words_df (text_rows lines) =
    RDD.filter (λ word, 0 <? Py.len word)
      (RDD.flatMap (λ line, Py.split space line) (lines_rdd (text_rows lines))).
Proof. by rewrite df_words, rdd_words. Qed.

(** X3. [word_counts_rdd] and the grouped counts of the DataFrame hold one
    pair for each distinct non-empty token and nothing else: a pair is in
    the table exactly when its word is a non-empty token and its count the
    number of occurrences of the word, and no word comes twice. *)
Theorem word_counts_complete (rt : Runtime) (lines : list string) (w : string) (c : Z) :
  fair rt →
  ((w, c) ∈ word_counts_rdd rt (text_rows lines) ↔
     w ∈ words lines ∧ c = Z.of_nat (occurrences w (tokens lines))) ∧
  ({| word := w; count := c |} ∈
     DF.count rt (DF.groupBy w_word (words_df (text_rows lines))) ↔
     w ∈ words lines ∧ c = Z.of_nat (occurrences w (tokens lines))) ∧
  NoDup (word_counts_rdd rt (text_rows lines)).*1 ∧
  NoDup (word <$> DF.count rt (DF.groupBy w_word (words_df (text_rows lines)))).
Proof.
  intros Hrt.
  pose proof (word_counts_rdd_table rt lines Hrt) as Hrdd.
  pose proof (df_counts_table rt lines Hrt) as Hdf.
  assert (∀ w c, (w, c) ∈ map_to_list (word_table (words lines)) ↔
            w ∈ words lines ∧ c = Z.of_nat (occurrences w (tokens lines))) as Htab.
  { intros w0 c0. rewrite word_table_elem_of. split; intros [Hw ->]; (split; [done|]).
    - by rewrite occurrences_words by (by apply elem_of_words in Hw as [? _]).
    - by rewrite occurrences_words by (by apply elem_of_words in Hw as [? _]). }
  split_and!.
  - by rewrite Hrdd.
  - rewrite <-Htab, <-Hdf. split.
    + apply (list_elem_of_fmap_2 pair_of_row).
    + intros ([w0 c0] & [= -> ->] & Hin)%list_elem_of_fmap. done.
  - rewrite Hrdd. apply NoDup_fst_map_to_list.
  - assert (word <$> DF.count rt (DF.groupBy w_word (words_df (text_rows lines))) =
            (pair_of_row <$> DF.count rt (DF.groupBy w_word (words_df (text_rows lines)))).*1)
      as -> by (by rewrite <-list_fmap_compose).
    rewrite Hdf. apply NoDup_fst_map_to_list.
Qed.

Lemma word_counts_complete_witness :
  fair rt_az ∧
  (("be", 2) ∈ word_counts_rdd rt_az (text_rows ["to be or not to be"]) ↔
     "be" ∈ words ["to be or not to be"] ∧
     2 = Z.of_nat (occurrences "be" (tokens ["to be or not to be"]))).
Proof.
  split; [exact fair_rt_az|].
  exact (proj1 (word_counts_complete rt_az ["to be or not to be"] "be" 2 fair_rt_az)).
Defined.

(** X4. Counting loses no word: the counts of [word_counts_rdd] add up to
    the number of non-empty tokens of the text, and so do the counts of the
    DataFrame. *)
Theorem word_counts_total (rt : Runtime) (lines : list string) :
  fair rt →
  total_count (word_counts_rdd rt (text_rows lines)) = Z.of_nat (length (words lines)) ∧
  total_count
    (pair_of_row <$> DF.count rt (DF.groupBy w_word (words_df (text_rows lines))))
    = Z.of_nat (length (words lines)).
Proof.
  intros Hrt.
  rewrite (word_counts_rdd_table rt lines Hrt), (df_counts_table rt lines Hrt).
  by rewrite total_count_word_table.
Qed.

Lemma word_counts_total_witness :
  fair rt_az ∧
  total_count (word_counts_rdd rt_az (text_rows ["to be or not to be"; " "])) = 6.
Proof.
  split; [exact fair_rt_az|].
  exact (proj1 (word_counts_total rt_az ["to be or not to be"; " "] fair_rt_az)).
Defined.

(** ** [split] and [join] *)

Lemma py_split_app sep s1 s2 :
  Py.split sep (s1 +:+ String sep s2) = Py.split sep s1 ++ Py.split sep s2.
Proof.
  induction s1 as [|c s1 IH].
  - change (Py.split sep (String sep s2) = [""] ++ Py.split sep s2).
    simpl. by rewrite Ascii.eqb_refl.
  - change (Py.split sep (String c (s1 +:+ String sep s2)) =
            Py.split sep (String c s1) ++ Py.split sep s2).
    simpl. rewrite IH. destruct (Ascii.eqb c sep); [done|].
    pose proof (py_split_not_nil sep s1). by destruct (Py.split sep s1).
Qed.

Lemma py_split_one sep piece :
  sep ∉ chars piece → Py.split sep piece = [piece].
Proof.
  induction piece as [|c piece IH]; [done|]. simpl. intros Hsep.
  destruct (Ascii.eqb_spec c sep) as [->|_]; [by destruct Hsep; left|].
  rewrite IH; [done|]. intros Hin. apply Hsep. by right.
Qed.

Lemma py_split_length sep s : length (Py.split sep s) = S (char_count sep s).
Proof.
  unfold char_count. induction s as [|c s IH]; [done|]. simpl.
  rewrite filter_cons. destruct (Ascii.eqb_spec c sep) as [->|Hc].
  - rewrite decide_True by done. simpl. by rewrite IH.
  - rewrite decide_False by done.
    pose proof (py_split_not_nil sep s). by destruct (Py.split sep s).
Qed.

(** X5. [split] of Python cuts a line into pieces that hold no separator,
    one more than the line holds separators, and that give the line back
    when they are joined with the separator; on the space that the
    notebook passes, [split] of Spark SQL returns the same pieces. *)
Theorem split_pieces (sep : ascii) (s : string) :
  join sep (Py.split sep s) = s ∧
  Forall (λ piece, sep ∉ chars piece) (Py.split sep s) ∧
  length (Py.split sep s) = S (char_count sep s) ∧
  Sql.split s = Py.split space s.
Proof.
  split_and!.
  - apply py_split_join.
  - apply Forall_forall. intros piece. apply py_split_no_sep.
  - apply py_split_length.
  - apply sql_split_py.
Qed.

(** X6. The pieces of a line are the only list of pieces without a space
    that joins to the line: a non-empty list of such pieces, joined with
    spaces, is what both [split]s of the notebook cut the joined line
    into. *)
Theorem split_of_join (pieces : list string) :
  pieces ≠ [] →
  Forall (λ piece, space ∉ chars piece) pieces →
  Py.split space (join space pieces) = pieces ∧
  Sql.split (join space pieces) = pieces.
Proof.
  intros Hne Hall. rewrite sql_split_py.
  assert (Py.split space (join space pieces) = pieces) as ->; [|done].
  destruct pieces as [|p ps]; [done|]. clear Hne.
  revert p Hall. induction ps as [|q ps IH]; intros p [Hp Hps]%Forall_cons.
  - by apply py_split_one.
  - change (Py.split space (p +:+ String space (join space (q :: ps))) = p :: q :: ps).
    by rewrite py_split_app, IH, py_split_one.
Qed.

Lemma split_of_join_witness :
  ["to"; ""; "be"] ≠ [] ∧
  Forall (λ piece, space ∉ chars piece) ["to"; ""; "be"] ∧
  Py.split space (join space ["to"; ""; "be"]) = ["to"; ""; "be"] ∧
  Sql.split (join space ["to"; ""; "be"]) = ["to"; ""; "be"].
Proof.
  assert (["to"; ""; "be"] ≠ []) as Hne by discriminate.
  assert (Forall (λ piece, space ∉ chars piece) ["to"; ""; "be"]) as Hall.
  { repeat constructor; apply (bool_decide_eq_false_1 _); vm_compute; reflexivity. }
  split; [exact Hne|]. split; [exact Hall|].
  exact (split_of_join ["to"; ""; "be"] Hne Hall).
Defined.

(** X7. A line break separates words as a space does: a file where two
    lines are written as one, with a space between them, gives both
    pipelines the same words in the same order. *)
Theorem line_break_as_space (l1 l2 : string) (before after : list string) :
  tokens (before ++ (l1 +:+ String space l2) :: after) =
    tokens (before ++ l1 :: l2 :: after) ∧
  RDD.filter (λ word, 0 <? Py.len word)
    (RDD.flatMap (λ line, Py.split space line)
       (lines_rdd (text_rows (before ++ (l1 +:+ String space l2) :: after))))
  = RDD.filter (λ word, 0 <? Py.len word)
      (RDD.flatMap (λ line, Py.split space line)
         (lines_rdd (text_rows (before ++ l1 :: l2 :: after)))) ∧
  w_word <$> words_df (text_rows (before ++ (l1 +:+ String space l2) :: after)) =
    w_word <$> words_df (text_rows (before ++ l1 :: l2 :: after)).
Proof.
  assert (tokens (before ++ (l1 +:+ String space l2) :: after) =
          tokens (before ++ l1 :: l2 :: after)) as Htok.
  { unfold tokens. rewrite !bind_app, !bind_cons, py_split_app.
    by rewrite <-app_assoc. }
  split; [done|]. rewrite !df_words, !rdd_words. unfold words. by rewrite Htok.
Qed.

(** ** Texts without words, and the order of the lines *)

Lemma blank_split s : blank s → Forall (λ piece, piece = "") (Py.split space s).
Proof.
  unfold blank. induction s as [|c s IH]; simpl.
  - by repeat constructor.
  - intros [-> Hs]%Forall_cons. rewrite Ascii.eqb_refl.
    constructor; [done|]. by apply IH.
Qed.

Lemma join_empty_blank pieces :
  Forall (λ piece, piece = "") pieces → blank (join space pieces).
Proof.
  unfold blank. induction 1 as [|p ps -> Hps IH]; [constructor|].
  destruct ps as [|q ps]; [constructor|].
  change (Forall (λ c, c = space) (space :: chars (join space (q :: ps)))).
  by constructor.
Qed.

Lemma words_nil_blank lines : words lines = [] ↔ Forall blank lines.
Proof.
  unfold words, tokens. induction lines as [|l lines IH].
  - split; [constructor|done].
  - rewrite bind_cons, filter_app, Forall_cons, <-IH. split.
    + intros [Hl Hls]%app_eq_nil. split; [|done].
      rewrite <-(py_split_join space l). apply join_empty_blank.
      apply Forall_forall. intros p Hp. apply dec_stable. intros Hne.
      assert (p ∈ filter (λ w, w ≠ "") (Py.split space l)) as Hin
        by (by apply list_elem_of_filter).
      rewrite Hl in Hin. by apply elem_of_nil in Hin.
    + intros [Hl ->]. rewrite app_nil_r.
      apply blank_split in Hl. induction Hl as [|p ps -> _ IHp]; [done|].
      by rewrite filter_cons, decide_False by (by intros []).
Qed.

Lemma ranking_nil ws l : ranking ws l → (l = [] ↔ ws = []).
Proof.
  intros [Hp _]. split.
  - intros ->. apply Permutation_nil_l in Hp. symmetry in Hp.
    apply map_to_list_empty_iff in Hp. destruct ws as [|w ws]; [done|].
    assert (word_table (w :: ws) !! w = None) as Hw by (by rewrite Hp, lookup_empty).
    rewrite word_table_lookup, decide_True in Hw by left. done.
  - intros ->. apply Permutation_nil_r. by rewrite Hp.
Qed.

Lemma take_10_nil {A} (l : list A) : take 10 l = [] ↔ l = [].
Proof. split; [by destruct l|by intros ->]. Qed.

(** X8. A result is empty exactly when the text has no word: both
    pipelines return no pair if and only if every line of the file is made
    of spaces only (an empty file and empty lines included). *)
Theorem empty_result_blank_text (rt : Runtime) (lines : list string) :
  fair rt →
  (top_10_rdd rt (text_rows lines) = [] ↔ Forall blank lines) ∧
  (word_counts_df rt (text_rows lines) = [] ↔ Forall blank lines).
Proof.
  intros Hrt. rewrite <-words_nil_blank. split.
  - rewrite top_10_rdd_take, take_10_nil.
    apply ranking_nil. by apply rdd_ranking.
  - trans (pair_of_row <$> word_counts_df rt (text_rows lines) = []).
    { split; [by intros ->|by intros ?%fmap_nil_inv]. }
    rewrite word_counts_df_take, take_10_nil.
    apply ranking_nil. by apply df_ranking.
Qed.

Lemma empty_result_blank_text_witness :
  fair rt_az ∧
  (top_10_rdd rt_az (text_rows [""; "   "]) = [] ↔ Forall blank [""; "   "]) ∧
  (word_counts_df rt_az (text_rows [""; "   "]) = [] ↔ Forall blank [""; "   "]).
Proof.
  split; [exact fair_rt_az|].
  exact (empty_result_blank_text rt_az [""; "   "] fair_rt_az).
Defined.

Lemma word_table_Permutation ws ws' : ws ≡ₚ ws' → word_table ws = word_table ws'.
Proof.
  intros Hp. apply map_eq. intros w. rewrite !word_table_lookup.
  assert (occurrences w ws = occurrences w ws') as ->
    by (unfold occurrences; by rewrite Hp).
  destruct (decide (w ∈ ws)) as [Hin|Hout].
  - rewrite decide_True; [done|]. by rewrite <-Hp.
  - rewrite decide_False; [done|]. by rewrite <-Hp.
Qed.

Lemma words_Permutation lines lines' : lines ≡ₚ lines' → words lines ≡ₚ words lines'.
Proof. intros Hp. unfold words, tokens. by rewrite Hp. Qed.

(** X9. The order of the lines does not matter to the counts: two files
    with the same lines in any order give the same table of pairs, and the
    same sequence of counts in the top 10, in both pipelines and under any
    two runtimes. *)
Theorem line_order_irrelevant (rt rt' : Runtime) (lines lines' : list string) :
  fair rt → fair rt' → lines ≡ₚ lines' →
  word_counts_rdd rt (text_rows lines) ≡ₚ word_counts_rdd rt' (text_rows lines') ∧
  (top_10_rdd rt (text_rows lines)).*2 = (top_10_rdd rt' (text_rows lines')).*2 ∧
  count <$> word_counts_df rt (text_rows lines) =
    count <$> word_counts_df rt' (text_rows lines').
Proof.
  intros Hrt Hrt' Hp.
  pose proof (word_table_Permutation _ _ (words_Permutation _ _ Hp)) as Htab.
  assert ((top_10_rdd rt (text_rows lines)).*2 = (top_10_rdd rt' (text_rows lines')).*2)
    as Hrdd.
  { pose proof (rdd_ranking rt lines Hrt) as [Hp1 Hs1].
    pose proof (rdd_ranking rt' lines' Hrt') as [Hp2 Hs2].
    rewrite !top_10_rdd_take, !fmap_take. f_equal.
    apply (rankings_same_keys snd); [|done..]. by rewrite Hp1, Hp2, Htab. }
  split_and!; [|done|].
  - by rewrite !word_counts_rdd_table, Htab.
  - by rewrite <-(top_10_same_counts rt lines Hrt),
      <-(top_10_same_counts rt' lines' Hrt').
Qed.

Lemma line_order_irrelevant_witness :
  fair rt_az ∧ fair rt_za ∧ ["b a"; "a"] ≡ₚ ["a"; "b a"] ∧
  word_counts_rdd rt_az (text_rows ["b a"; "a"]) ≡ₚ
    word_counts_rdd rt_za (text_rows ["a"; "b a"]) ∧
  (top_10_rdd rt_az (text_rows ["b a"; "a"])).*2 =
    (top_10_rdd rt_za (text_rows ["a"; "b a"])).*2 ∧
  count <$> word_counts_df rt_az (text_rows ["b a"; "a"]) =
    count <$> word_counts_df rt_za (text_rows ["a"; "b a"]).
Proof.
  assert (["b a"; "a"] ≡ₚ ["a"; "b a"]) as Hp by apply Permutation_swap.
  split; [exact fair_rt_az|]. split; [exact fair_rt_za|]. split; [exact Hp|].
  exact (line_order_irrelevant rt_az rt_za _ _ fair_rt_az fair_rt_za Hp).
Defined.

(** ** The head of a ranking, and rankings without ties *)

Lemma ranking_head ws l w :
  ranking ws l → w ∈ ws →
  (∀ w', w' ∈ ws → w' ≠ w → (occurrences w' ws < occurrences w ws)%nat) →
  head l = Some (w, Z.of_nat (occurrences w ws)).
Proof.
  intros Hl Hw Hmax.
  assert ((w, Z.of_nat (occurrences w ws)) ∈ l) as Hin by by apply (ranking_elem_of ws).
  destruct l as [|[w' c'] l]; [by apply elem_of_nil in Hin|]. simpl. f_equal.
  assert ((w', c') ∈ (w', c') :: l) as Hhd by left.
  apply (ranking_elem_of _ _ Hl) in Hhd as [Hw' ->].
  destruct (decide (w' = w)) as [->|Hne]; [done|]. exfalso.
  apply elem_of_cons in Hin as [[= ? _]|Hin]; [done|].
  destruct Hl as [_ Hs]. apply StronglySorted_cons in Hs as [Hall _].
  rewrite Forall_forall in Hall. specialize (Hall _ Hin).
  unfold key_le in Hall. simpl in Hall. specialize (Hmax w' Hw' Hne). lia.
Qed.

Lemma head_take_10 {A} (l : list A) : head (take 10 l) = head l.
Proof. by destruct l. Qed.

(** X10. A word that occurs more often than every other word comes first
    in both results, with its number of occurrences, under every runtime. *)
Theorem most_frequent_first (rt : Runtime) (lines : list string) (w : string) :
  fair rt →
  w ∈ words lines →
  (∀ w', w' ∈ words lines → w' ≠ w →
     (occurrences w' (tokens lines) < occurrences w (tokens lines))%nat) →
  head (top_10_rdd rt (text_rows lines)) =
    Some (w, Z.of_nat (occurrences w (tokens lines))) ∧
  head (word_counts_df rt (text_rows lines)) =
    Some {| word := w; count := Z.of_nat (occurrences w (tokens lines)) |}.
Proof.
  intros Hrt Hw Hmax.
  assert (∀ w', w' ∈ words lines → w' ≠ w →
            (occurrences w' (words lines) < occurrences w (words lines))%nat) as Hmax'.
  { intros w' Hw' Hne.
    rewrite !occurrences_words
      by (by apply elem_of_words in Hw as [? _]; apply elem_of_words in Hw' as [? _]).
    by apply Hmax. }
  rewrite <-(occurrences_words lines w) by (by apply elem_of_words in Hw as [? _]).
  split.
  - rewrite top_10_rdd_take, head_take_10.
    by apply (ranking_head (words lines)); [apply rdd_ranking|..].
  - pose proof (ranking_head _ _ w (df_ranking rt lines Hrt) Hw Hmax') as Hhd.
    rewrite <-head_take_10, <-word_counts_df_take in Hhd.
    destruct (word_counts_df rt (text_rows lines)) as [|[w0 c0] rows]; [done|].
    simpl in Hhd. by injection Hhd as -> ->.
Qed.

Lemma most_frequent_first_witness :
  fair rt_za ∧ "be" ∈ words ["be or not"; "be"] ∧
  head (top_10_rdd rt_za (text_rows ["be or not"; "be"])) = Some ("be", 2) ∧
  head (word_counts_df rt_za (text_rows ["be or not"; "be"])) =
    Some {| word := "be"; count := 2 |}.
Proof.
  assert ("be" ∈ words ["be or not"; "be"]) as Hw by elem_of_literal.
  split; [exact fair_rt_za|]. split; [exact Hw|].
  apply (most_frequent_first rt_za ["be or not"; "be"] "be" fair_rt_za Hw).
  intros w' Hw' Hne.
  elem_of_cases Hw'; subst w'; try done; vm_compute; lia.
Defined.

Lemma perm_keys_eq {A} (key : A → Z) (l1 l2 : list A) :
  NoDup (key <$> l1) → l1 ≡ₚ l2 → key <$> l1 = key <$> l2 → l1 = l2.
Proof.
  revert l2. induction l1 as [|x l1 IH]; intros l2 Hnd Hp Hk.
  - by apply Permutation_nil_l in Hp.
  - destruct l2 as [|y l2]; [done|]. rewrite !fmap_cons in Hk.
    injection Hk as Hxy Hk. rewrite fmap_cons in Hnd.
    apply NoDup_cons in Hnd as [Hx Hnd].
    assert (y ∈ x :: l1) as Hy by (rewrite Hp; left).
    apply elem_of_cons in Hy as [->|Hy].
    + f_equal. apply IH; [done| |done]. by apply Permutation_cons_inv in Hp.
    + destruct Hx. rewrite Hxy. by apply list_elem_of_fmap_2.
Qed.

Lemma ranking_unique ws l1 l2 :
  (∀ w w', w ∈ ws → w' ∈ ws → occurrences w ws = occurrences w' ws → w = w') →
  ranking ws l1 → ranking ws l2 → l1 = l2.
Proof.
  intros Hinj Hl1 Hl2.
  assert (l1 ≡ₚ l2) as Hp by (destruct Hl1 as [H1 _], Hl2 as [H2 _]; by rewrite H1, H2).
  apply (perm_keys_eq snd); [|done|].
  - apply NoDup_fmap_2_strong.
    + intros [w c] [w' c'] Hin Hin' Heq. simpl in Heq. subst c'.
      apply (ranking_elem_of _ _ Hl1) in Hin as [Hw ->].
      apply (ranking_elem_of _ _ Hl1) in Hin' as [Hw' Hc].
      f_equal. apply Hinj; [done..|]. lia.
    + eapply NoDup_fmap_1, ranking_NoDup_fst, Hl1.
  - apply (rankings_same_keys snd); [done|apply Hl1|apply Hl2].
Qed.

(** X11. Without ties the result is fixed by the text alone: when no two
    distinct words occur the same number of times, every runtime gives the
    same top 10, in the same order, and the DataFrame pipeline gives the
    pairs of the RDD pipeline. *)
Theorem no_ties_one_result (rt rt' : Runtime) (lines : list string) :
  fair rt → fair rt' →
  (∀ w w', w ∈ words lines → w' ∈ words lines →
     occurrences w (tokens lines) = occurrences w' (tokens lines) → w = w') →
  top_10_rdd rt (text_rows lines) = top_10_rdd rt' (text_rows lines) ∧
  pair_of_row <$> word_counts_df rt (text_rows lines) =
    pair_of_row <$> word_counts_df rt' (text_rows lines) ∧
  pair_of_row <$> word_counts_df rt (text_rows lines) = top_10_rdd rt (text_rows lines).
Proof.
  intros Hrt Hrt' Hinj.
  assert (∀ w w', w ∈ words lines → w' ∈ words lines →
     occurrences w (words lines) = occurrences w' (words lines) → w = w') as Hinj'.
  { intros w w' Hw Hw'.
    rewrite !occurrences_words
      by (by apply elem_of_words in Hw as [? _]; apply elem_of_words in Hw' as [? _]).
    by apply Hinj. }
  rewrite !word_counts_df_take, !top_10_rdd_take.
  split_and!; f_equal; apply (ranking_unique (words lines)); try done;
    by (apply rdd_ranking || apply df_ranking).
Qed.

Lemma no_ties_one_result_witness :
  fair rt_az ∧ fair rt_za ∧
  top_10_rdd rt_az (text_rows ["a b a"]) = top_10_rdd rt_za (text_rows ["a b a"]) ∧
  pair_of_row <$> word_counts_df rt_az (text_rows ["a b a"]) =
    pair_of_row <$> word_counts_df rt_za (text_rows ["a b a"]) ∧
  pair_of_row <$> word_counts_df rt_az (text_rows ["a b a"]) =
    top_10_rdd rt_az (text_rows ["a b a"]).
Proof.
  split; [exact fair_rt_az|]. split; [exact fair_rt_za|].
  apply (no_ties_one_result rt_az rt_za ["a b a"] fair_rt_az fair_rt_za).
  intros w w' Hw Hw'.
  elem_of_cases Hw; subst w; elem_of_cases Hw'; subst w'; try done;
    vm_compute; discriminate.
Defined.

(** ** What the cells print *)





(** ** The check of the schema *)

(** X13. [createDataFrame] with the schema of the notebook computes the row
    of a tuple exactly when the tuple has two items of which the second is
    an [int] of 32 bits or [None]; the first item may be any object and is
    stored in its string form (a [str] or [None] as it is, an [int] as its
    decimal text).  For every other tuple computing the row raises. *)
Theorem schema_accepts_iff (t : list Value) :
  ((∃ row, Conversion.convert_row Conversion.schema t = inr row) ↔
     fits_schema t = true) ∧
  ((∃ e, Conversion.convert_row Conversion.schema t = inl e) ↔
     fits_schema t = false) ∧
  (∀ row, Conversion.convert_row Conversion.schema t = inr row → row = stored t) ∧
  (stored t = t ↔ text_first t = true).
Proof.
  split_and!.
  - split.
    + intros [row Hrow]. by apply convert_row_inr in Hrow as [? _].
    + intros Hfits. eexists. by apply convert_row_fits.
  - split.
    + intros [e He]. by eapply convert_row_inl.
    + apply convert_row_unfit.
  - intros row Hrow. by apply convert_row_inr in Hrow as [_ ?].
  - destruct t as [|[s|n|] t]; simpl; split; done.
Qed.

Lemma stored_id_text_first (c : list (list Value)) :
  stored <$> c = c ↔ Forall (λ t, text_first t = true) c.
Proof.
  induction c as [|t c IH]; [by split; [constructor|]|].
  rewrite fmap_cons, Forall_cons, <-IH. split.
  - intros [= Ht Hc]. split; [|done].
    by destruct t as [|[s|n|] t].
  - intros [Ht ->]. f_equal. by destruct t as [|[s|n|] t].
Qed.

(** X14. The conversion of any RDD whose tuples fit the schema returns, in
    order, one row per tuple with the first item in its string form, under
    every scheduler; it is the identity exactly on the RDDs whose first
    items are all [str] or [None], as in the notebook. *)
Theorem conversion_round_trip_any (sch : Conversion.Scheduler) (c : list (list Value))
    (w : World) :
  Forall (λ row, fits_schema row = true) c →
  Conversion.collect sch (Conversion.rdd_from_df c) w = (inr (stored <$> c), w) ∧
  (Conversion.conversion sch c w).1 = inr (stored <$> c) ∧
  (stored <$> c = c ↔ Forall (λ t, text_first t = true) c).
Proof.
  intros Hc. split_and!.
  - by apply collect_rows_fit.
  - by apply conversion_result_fit.
  - apply stored_id_text_first.
Qed.

Lemma conversion_round_trip_any_witness :
  Forall (λ row, fits_schema row = true)
    [[VNone; VInt (-7)]; [VStr "kiwi"; VNone]; [VInt 5; VInt 5]] ∧
  Conversion.collect Conversion.sch_eager
    (Conversion.rdd_from_df [[VNone; VInt (-7)]; [VStr "kiwi"; VNone]; [VInt 5; VInt 5]])
    empty_world
  = (inr [[VNone; VInt (-7)]; [VStr "kiwi"; VNone]; [VStr "5"; VInt 5]], empty_world).
Proof.
  assert (Forall (λ row, fits_schema row = true)
    [[VNone; VInt (-7)]; [VStr "kiwi"; VNone]; [VInt 5; VInt 5]])
    as Hc by (repeat constructor).
  split; [exact Hc|].
  exact (proj1 (conversion_round_trip_any Conversion.sch_eager _ empty_world Hc)).
Defined.

Lemma conversion_raises_of_tuple sch (c : list (list Value)) needed e :
  Conversion.lawful sch →
  Conversion.run_action sch needed (Conversion.convert_row Conversion.schema <$> c)
    = inl e →
  ∃ t, t ∈ c ∧ Conversion.convert_row Conversion.schema t = inl e.
Proof.
  intros Hlaw He. apply run_action_raises in He as [i Hi]; [|done].
  apply rows_lookup_inl in Hi as (t & Ht & He & _). exists t. split; [|done].
  by eapply list_elem_of_lookup_2.
Qed.

(** X15. When a tuple among the first 21 does not fit the schema, the cell
    stops at [show()], which needs that row: only the first heading is
    printed, no table and no tuple, and the exception is the one that the
    check of some ill-fitting tuple of the RDD raises (which one is the
    scheduler's choice). *)
Theorem conversion_first_failure (sch : Conversion.Scheduler) (c : list (list Value))
    (i : nat) (bad : list Value) (w : World) :
  Conversion.lawful sch →
  (i < 21)%nat → c !! i = Some bad → fits_schema bad = false →
  ∃ e,
    Conversion.conversion sch c w = (inl e, say w [PrintStr "DataFrame from RDD:"]) ∧
    printed (Conversion.conversion sch c) w = [PrintStr "DataFrame from RDD:"] ∧
    ∃ t, t ∈ c ∧ Conversion.convert_row Conversion.schema t = inl e.
Proof.
  intros Hlaw Hi Hbad Hfits.
  apply convert_row_unfit in Hfits as [e0 He0].
  destruct (run_action_needed_raises sch
              (Conversion.convert_row Conversion.schema <$> c)
              (21 `min` length (Conversion.convert_row Conversion.schema <$> c)) i e0)
    as [e He].
  { rewrite length_fmap. apply lookup_lt_Some in Hbad. lia. }
  { by rewrite list_lookup_fmap, Hbad, <-He0. }
  exists e.
  assert (Conversion.conversion sch c w = (inl e, say w [PrintStr "DataFrame from RDD:"]))
    as Hrun.
  { rewrite conversion_run. cbv zeta.
    destruct (Conversion.run_action sch (21 `min` _) _) as [e'|fetched];
      [by injection He as ->|done]. }
  split_and!; [done|by apply (printed_say _ _ _ _ Hrun)|].
  by eapply conversion_raises_of_tuple.
Qed.

Lemma conversion_first_failure_witness :
  Conversion.lawful Conversion.sch_eager ∧
  [[VStr "apple"; VInt 5]; [VStr "banana"; VInt 2147483648]; [VInt 1]] !! 1%nat =
    Some [VStr "banana"; VInt 2147483648] ∧
  fits_schema [VStr "banana"; VInt 2147483648] = false ∧
  ∃ e,
    Conversion.conversion Conversion.sch_eager
      [[VStr "apple"; VInt 5]; [VStr "banana"; VInt 2147483648]; [VInt 1]] empty_world
      = (inl e, say empty_world [PrintStr "DataFrame from RDD:"]) ∧
    printed (Conversion.conversion Conversion.sch_eager
      [[VStr "apple"; VInt 5]; [VStr "banana"; VInt 2147483648]; [VInt 1]]) empty_world
      = [PrintStr "DataFrame from RDD:"] ∧
    ∃ t, t ∈ [[VStr "apple"; VInt 5]; [VStr "banana"; VInt 2147483648]; [VInt 1]] ∧
         Conversion.convert_row Conversion.schema t = inl e.
Proof.
  split; [exact lawful_sch_eager|]. split; [reflexivity|]. split; [reflexivity|].
  apply (conversion_first_failure Conversion.sch_eager _ 1 [VStr "banana"; VInt 2147483648]
           empty_world lawful_sch_eager); [lia|reflexivity|reflexivity].
Defined.



